(** * Solar PV simulator: the yield-scaling and projection pipeline

    Shallow embedding of [interactive_simulator.py].  The arithmetic of the
    pipeline is written once, over an interface [Number] of the operations the
    Python code applies to its numbers, and read at two instances:

    - [Q], exact rational arithmetic, for the algebraic laws that the
      specification states "up to floating tolerance";
    - [float], IEEE 754 binary64 (the representation of [numpy.float64] and of
      Python's [float]), for the concrete runs and for the behaviour at a zero
      divisor, where numpy returns [inf] or [nan] and raises nothing. *)

From Stdlib Require Import ZArith QArith Qabs List Bool String Lia Lqa Floats.
From Stdlib Require Import Qround.
Import ListNotations.

Set Implicit Arguments.

(** ** Numbers *)

Class Number (F : Type) : Type := {
  num_of_Z : Z -> F;
  num_add : F -> F -> F;
  num_sub : F -> F -> F;
  num_mul : F -> F -> F;
  num_div : F -> F -> F;
  num_opp : F -> F;
  num_eqb : F -> F -> bool;
  num_ltb : F -> F -> bool;
  num_leb : F -> F -> bool;
  num_isnan : F -> bool
}.

Declare Scope num_scope.
Delimit Scope num_scope with num.
Infix "+" := num_add : num_scope.
Infix "-" := num_sub : num_scope.
Infix "*" := num_mul : num_scope.
Infix "/" := num_div : num_scope.
Notation "- x" := (num_opp x) : num_scope.
Infix "==?" := num_eqb (at level 70, no associativity) : num_scope.
Infix "<?" := num_ltb : num_scope.
Infix "<=?" := num_leb : num_scope.

#[export] Instance Q_Number : Number Q := {|
  num_of_Z := inject_Z;
  num_add := Qplus;
  num_sub := Qminus;
  num_mul := Qmult;
  num_div := Qdiv;
  num_opp := Qopp;
  num_eqb := Qeq_bool;
  num_ltb := fun a b => negb (Qle_bool b a);
  num_leb := Qle_bool;
  num_isnan := fun _ => false
|}.

(** Integers reach a binary64 number through [of_uint63]; the pipeline only
    converts small literals ([1000], [100], the years [0..25]). *)
Definition float_of_Z (z : Z) : float :=
  match z with
  | Zneg p => PrimFloat.opp (PrimFloat.of_uint63 (Uint63.of_Z (Zpos p)))
  | _ => PrimFloat.of_uint63 (Uint63.of_Z z)
  end.

#[export] Instance float_Number : Number float := {|
  num_of_Z := float_of_Z;
  num_add := PrimFloat.add;
  num_sub := PrimFloat.sub;
  num_mul := PrimFloat.mul;
  num_div := PrimFloat.div;
  num_opp := PrimFloat.opp;
  num_eqb := PrimFloat.eqb;
  num_ltb := PrimFloat.ltb;
  num_leb := PrimFloat.leb;
  num_isnan := PrimFloat.is_nan
|}.

(** ** Data model *)

(** A sample of the AC power series is a pair of a time stamp and watts; the
    series is the pandas [Series] [mc.results.ac], in index order. *)
Record timestamp : Type := {
  ts_year : Z;
  ts_month : Z;
  ts_day : Z;
  ts_hour : Z;
  ts_minute : Z
}.

Definition series (F : Type) : Type := list (timestamp * F).

(** The dictionary [loss_proportions] of [run_simulation]. *)
Record LossProportions (F : Type) : Type := {
  dc_system_loss_ratio : F;
  inverter_loss_ratio : F;
  final_yield_ratio : F
}.

(** The dictionary [scaled_losses] of [update_gui_results]. *)
Record Losses (F : Type) : Type := {
  POA_Energy_kWh : F;
  DC_System_Loss_kWh : F;
  Inverter_Loss_kWh : F;
  Final_AC_Yield_kWh : F
}.

(** What [run_simulation] reads from pvlib: the three result series of the
    model chain and two parameters of the selected module. *)
Record ModelChainResults (F : Type) : Type := {
  mc_ac : series F;
  mc_dc_p_mp : series F;
  mc_effective_irradiance : series F
}.

Record CECModule (F : Type) : Type := {
  STC : F;
  A_c : F
}.

(** The numbers [update_gui_results] shows and stores, with the data handed
    to the chart functions. *)
Record GuiResults (F : Type) : Type := {
  real_specific_yield : F;
  chart_monthly_yield : list (Z * F);
  scaled_losses : Losses F;
  annual_savings : F;
  payback_period : F;
  payback_marker : bool;
  co2_saved_kg : F;
  cumulative_co2_saved : list F;
  monthly_production : list (Z * F)
}.

(** Calendar month of a time stamp, counted from year 0. *)
Definition month_index (t : timestamp) : Z :=
  (ts_year t * 12 + (ts_month t - 1))%Z.

Definition Zrange (lo : Z) (n : nat) : list Z :=
  map (fun i => (lo + Z.of_nat i)%Z) (seq 0 n).

(** [np.arange(0, 26)]. *)
Definition years_Z : list Z := Zrange 0 26.

Section Pipeline.
Context {F : Type} `{Number F}.
Local Open Scope num_scope.

Definition lit (z : Z) : F := num_of_Z z.

(** [Series.sum()]: the sum of the samples.  Exact over [Q]; in binary64 it
    adds from left to right, where pandas sums with compensation and skips
    [nan], so binary64 statements use it only on sums that are exact. *)
Definition series_sum (s : series F) : F :=
  fold_left (fun acc p => acc + snd p) s (lit 0).

(** [ac_power * k]: every sample times [k], index untouched. *)
Definition series_scale (s : series F) (k : F) : series F :=
  map (fun p => (fst p, snd p * k)) s.

(** Lines 79 and 85-94: the three ratios of the plane-of-array energy. *)
Definition loss_proportions (poa_energy_kwh dc_energy_kwh actual_ac_energy_kwh : F)
  : LossProportions F :=
  let inverter_loss_kwh := dc_energy_kwh - actual_ac_energy_kwh in
  let dc_system_loss_kwh := poa_energy_kwh - dc_energy_kwh in
  let total_energy_input := poa_energy_kwh in
  {| dc_system_loss_ratio := dc_system_loss_kwh / total_energy_input;
     inverter_loss_ratio := inverter_loss_kwh / total_energy_input;
     final_yield_ratio := actual_ac_energy_kwh / total_energy_input |}.

(** [run_simulation], lines 72-96, after [mc.run_model]: the specific yield,
    the AC series and the loss proportions. *)
Definition run_simulation (mc : ModelChainResults F) (module : CECModule F)
  : F * series F * LossProportions F :=
  let module_power_kwp := STC module / lit 1000 in
  let actual_ac_energy_kwh := series_sum (mc_ac mc) / lit 1000 in
  let specific_yield := actual_ac_energy_kwh / module_power_kwp in
  let dc_energy_kwh := series_sum (mc_dc_p_mp mc) / lit 1000 in
  let num_modules_per_kwp := lit 1000 / STC module in
  let system_area := num_modules_per_kwp * A_c module in
  let poa_energy_kwh :=
    series_sum (mc_effective_irradiance mc) * system_area / lit 1000 in
  (specific_yield, mc_ac mc,
   loss_proportions poa_energy_kwh dc_energy_kwh actual_ac_energy_kwh).

(** ** Monthly production ([create_plots], line 104) *)

(** [Series.resample('ME').sum()]: one bin per calendar month from the month of
    the earliest sample to the month of the latest one, each holding the sum
    of the samples of that month (zero for a month without samples). *)
Definition resample_ME_sum (s : series F) : list (Z * F) :=
  match map (fun p => month_index (fst p)) s with
  | [] => []
  | m :: ms =>
      let lo := fold_left Z.min ms m in
      let hi := fold_left Z.max ms m in
      map (fun k =>
             (k, series_sum (filter (fun p => (month_index (fst p) =? k)%Z) s)))
          (Zrange lo (Z.to_nat (hi - lo + 1)))
  end.

(** [x / 1000] and [x * k] on the resampled series. *)
Definition bins_div (b : list (Z * F)) (d : F) : list (Z * F) :=
  map (fun p => (fst p, snd p / d)) b.

Definition bins_mul (b : list (Z * F)) (k : F) : list (Z * F) :=
  map (fun p => (fst p, snd p * k)) b.

(** Line 104: [monthly_yield = ac_power.resample('ME').sum() / 1000]. *)
Definition monthly_yield (ac_power : series F) : list (Z * F) :=
  bins_div (resample_ME_sum ac_power) (lit 1000).

(** Line 116: the samples of 15 July. *)
Definition daily_power (ac_power : series F) : series F :=
  filter (fun p => (ts_month (fst p) =? 7)%Z && (ts_day (fst p) =? 15)%Z) ac_power.

Definition create_plots (ac_power : series F) : list (Z * F) * series F :=
  (monthly_yield ac_power, daily_power ac_power).

(** ** Payback ([create_economic_plot], lines 174-192) *)

(** [numpy.interp(x, xp, fp)] at a scalar [x], with the default [left] and
    [right]: [fp[-1]] above [xp[-1]], [fp[0]] below [xp[0]], and between them
    the chord through the two neighbours of [x].  The index [j] with
    [xp[j] <= x < xp[j+1]] is found as numpy's linear search does; on the
    nondecreasing [xp] that [interp] requires, its bisection finds the same.
    On an [xp] that is not nondecreasing the two searches can differ, so
    every statement about [interp] is on a nondecreasing [xp] or on a clamp. *)
Fixpoint interp_scan (key : F) (arr : list F) (i : nat) : nat :=
  match arr with
  | [] => i
  | a :: rest => if a <=? key then interp_scan key rest (S i) else i
  end.

Definition interp (x : F) (xp fp : list F) : F :=
  if num_isnan x then x
  else if last xp (lit 0) <? x then last fp (lit 0)
  else if x <? hd (lit 0) xp then hd (lit 0) fp
  else
    let j := pred (interp_scan x (tl xp) 1) in
    let xj := nth j xp (lit 0) in
    let yj := nth j fp (lit 0) in
    if (S j =? List.length xp)%nat then yj
    else if xj ==? x then yj
    else
      let xj1 := nth (S j) xp (lit 0) in
      let yj1 := nth (S j) fp (lit 0) in
      let slope := (yj1 - yj) / (xj1 - xj) in
      let r := slope * (x - xj) + yj in
      if num_isnan r then
        let r' := slope * (x - xj1) + yj1 in
        if num_isnan r' && (yj ==? yj1) then yj else r'
      else r.

Definition years : list F := map lit years_Z.

(** Lines 179-182: the loop body, once per year [1..25]; [prev] is
    [cumulative_savings[i-1]]. *)
Fixpoint savings_loop (n : nat) (prev current_yield price annual_degradation_rate : F)
  : list F :=
  match n with
  | O => []
  | S n' =>
      let annual_savings := current_yield * price in
      let cum := prev + annual_savings in
      cum :: savings_loop n' cum
               (current_yield * (lit 1 - annual_degradation_rate))
               price annual_degradation_rate
  end.

(** The loop variable [current_yield] after [n] turns of that loop. *)
Fixpoint current_yield_after (n : nat) (current_yield annual_degradation_rate : F) : F :=
  match n with
  | O => current_yield
  | S n' =>
      current_yield_after n' (current_yield * (lit 1 - annual_degradation_rate))
                          annual_degradation_rate
  end.

Definition cumulative_savings (specific_yield price annual_degradation_rate : F)
  : list F :=
  lit 0 :: savings_loop 25 (lit 0) specific_yield price annual_degradation_rate.

(** Line 184. *)
Definition remaining_cost (cost specific_yield price annual_degradation_rate : F)
  : list F :=
  map (fun s => cost - s)
      (cumulative_savings specific_yield price annual_degradation_rate).

(** Line 190: [np.interp(0, -remaining_cost, years)]. *)
Definition create_economic_plot (cost specific_yield price annual_degradation_rate : F)
  : F :=
  interp (lit 0)
         (map num_opp (remaining_cost cost specific_yield price annual_degradation_rate))
         years.

(** Line 192: the payback point is drawn only strictly inside the horizon. *)
Definition payback_marker_drawn (payback_period : F) : bool :=
  (lit 0 <? payback_period) && (payback_period <? lit 25).

(** ** CO2 ([create_environmental_plot], lines 213-214) *)

Definition create_environmental_plot (co2_saved_kg : F) : list F :=
  map (fun y => lit y * co2_saved_kg) years_Z.

(** ** [update_gui_results], lines 456-500 *)

(** Lines 462-471. *)
Definition reconstruct_losses (real_specific_yield : F) (lp : LossProportions F)
  : Losses F :=
  let total_energy_input_scaled := real_specific_yield / final_yield_ratio lp in
  let dc_system_loss_scaled := total_energy_input_scaled * dc_system_loss_ratio lp in
  let inverter_loss_scaled := total_energy_input_scaled * inverter_loss_ratio lp in
  {| POA_Energy_kWh := total_energy_input_scaled;
     DC_System_Loss_kWh := dc_system_loss_scaled;
     Inverter_Loss_kWh := inverter_loss_scaled;
     Final_AC_Yield_kWh := real_specific_yield |}.

(** Line 479. *)
Definition annual_co2_saved_kg (real_specific_yield co2_intensity : F) : F :=
  (real_specific_yield * co2_intensity) / lit 1000.

(** Line 456, and line 441 for the degradation slider. *)
Definition slider_fraction (slider : F) : F := slider / lit 100.

(** Lines 457 and 459: the yield and the AC series, both times the health
    factor. *)
Definition rescale (specific_yield : F) (ac_power : series F)
    (system_health_factor : F) : F * series F :=
  (specific_yield * system_health_factor,
   series_scale ac_power system_health_factor).

(** Lines 456-500: every number that is shown, charted or stored. *)
Definition update_gui_results
    (health_slider specific_yield : F) (ac_power : series F)
    (cost price co2_intensity : F) (lp : LossProportions F)
    (annual_degradation_rate : F) : GuiResults F :=
  let system_health_factor := slider_fraction health_slider in
  let real_specific_yield :=
    fst (rescale specific_yield ac_power system_health_factor) in
  let monthly_chart :=
    fst (create_plots (snd (rescale specific_yield ac_power system_health_factor))) in
  let losses := reconstruct_losses real_specific_yield lp in
  let annual_savings := real_specific_yield * price in
  let payback_period :=
    create_economic_plot cost real_specific_yield price annual_degradation_rate in
  let co2_saved_kg := annual_co2_saved_kg real_specific_yield co2_intensity in
  {| real_specific_yield := real_specific_yield;
     chart_monthly_yield := monthly_chart;
     scaled_losses := losses;
     annual_savings := annual_savings;
     payback_period := payback_period;
     payback_marker := payback_marker_drawn payback_period;
     co2_saved_kg := co2_saved_kg;
     cumulative_co2_saved := create_environmental_plot co2_saved_kg;
     monthly_production :=
       bins_mul (bins_div (resample_ME_sum ac_power) (lit 1000)) system_health_factor |}.

End Pipeline.

(** ** Binary64 classes *)

(** Neither zero nor a finite number: [nan] or an infinity. *)
Definition SF_nonfinite (f : spec_float) : bool :=
  match f with
  | S754_nan | S754_infinity _ => true
  | _ => false
  end.

(** ** What a step hands back *)

(** A Python call either returns or raises. *)
Inductive outcome (A : Type) : Type :=
| Returns (a : A)
| Raises (exn : string).
Arguments Raises {A} exn.

(** Lines 462-471 hold no [raise], and their divisions are divisions of
    [numpy.float64] scalars, which answer a zero divisor with [inf] or [nan]
    (and a warning), not with an exception: the step always returns. *)
Definition reconstruct_losses_outcome {F : Type} `{Number F}
    (real_specific_yield : F) (lp : LossProportions F) : outcome (Losses F) :=
  Returns (reconstruct_losses real_specific_yield lp).

(** What the payback label can say.  The code formats the number that
    [create_economic_plot] returns ([f"{payback_period:.1f} Years"]). *)
Inductive payback_report (F : Type) : Type :=
| PaybackYears (y : F)
| NoPaybackWithinHorizon.
Arguments NoPaybackWithinHorizon {F}.

Definition solve_payback {F : Type} `{Number F}
    (cost first_year_yield price degradation_rate : F) : payback_report F :=
  PaybackYears (create_economic_plot cost first_year_yield price degradation_rate).

(** ** Vocabulary of the statements about the monthly aggregation *)

(** The aggregation in the specification's words: per calendar month, the sum
    of [power * dt] over the samples, divided by 1000, for a sampling step of
    [dt] hours. *)
Definition aggregate_monthly_spec {F : Type} `{Number F} (dt : F) (s : series F)
  : list (Z * F) :=
  bins_div (resample_ME_sum (series_scale s dt)) (lit 1000).

(** ** Vocabulary of the statements about rescaling *)

(** Two series agree: same time stamps in the same order, equal watts. *)
Definition series_eq (a b : series Q) : Prop :=
  Forall2 (fun x y => fst x = fst y /\ Qeq (snd x) (snd y)) a b.

(** Sample by sample sum of two series over the same index. *)
Definition series_plus (a b : series Q) : series Q :=
  map (fun xy => (fst (fst xy), Qplus (snd (fst xy)) (snd (snd xy)))) (combine a b).

(** Two lists of monthly bins agree: same months, equal energies. *)
Definition bins_eq (a b : list (Z * Q)) : Prop :=
  Forall2 (fun x y => fst x = fst y /\ Qeq (snd x) (snd y)) a b.

Definition is_leap (y : Z) : bool :=
  ((y mod 4 =? 0) && negb (y mod 100 =? 0) || (y mod 400 =? 0))%Z.

Definition days_in_month (y m : Z) : Z :=
  if (m =? 2)%Z then (if is_leap y then 29 else 28)%Z
  else if ((m =? 4) || (m =? 6) || (m =? 9) || (m =? 11))%Z then 30%Z
  else 31%Z.

Definition hours_in_month (y m : Z) : Z := (24 * days_in_month y m)%Z.

(** One sample of [w] watts at every full hour of the year [y]. *)
Definition hourly_year {F : Type} (y : Z) (w : F) : series F :=
  flat_map (fun m =>
    flat_map (fun d =>
      map (fun h => ({| ts_year := y; ts_month := m; ts_day := d;
                        ts_hour := h; ts_minute := 0 |}, w))
          (Zrange 0 24))
      (Zrange 1 (Z.to_nat (days_in_month y m))))
    (Zrange 1 12).

(** The series lies in the calendar year [y] and reaches its first and its
    last month. *)
Definition spans_calendar_year {F : Type} (y : Z) (s : series F) : bool :=
  forallb (fun p => (ts_year (fst p) =? y)%Z && (1 <=? ts_month (fst p))%Z
                    && (ts_month (fst p) <=? 12)%Z) s
  && existsb (fun p => (ts_month (fst p) =? 1)%Z) s
  && existsb (fun p => (ts_month (fst p) =? 12)%Z) s.

(** ** The run and the window (lines 27-45 and 430-525) *)

Inductive widget_state : Type := normal | disabled.

(** The part of the window that a run touches. *)
Record Gui (R : Type) : Type := {
  run_button_state : widget_state;
  run_button_text : string;
  export_button_state : widget_state;
  system_details_label : string;
  simulation_results : option R;
  console : list string
}.

(** The window as [__init__] leaves it. *)
Definition initial_gui (R : Type) : Gui R :=
  {| run_button_state := normal;
     run_button_text := "Run Simulation";
     export_button_state := disabled;
     system_details_label := "Simulator is ready. Press 'Run Simulation'.";
     simulation_results := None;
     console := [] |}.

(** What [self.after(0, ...)] queues for the window's thread. *)
Inductive callback (S : Type) : Type :=
| UpdateGuiResults (sim : S)
| SimulationFinished (button_text : string).
Arguments SimulationFinished {S} button_text.

Section Run.
Variables W S R : Type.

(** The names of the simulated module and inverter, as the status line shows
    them. *)
Variable component_names : S -> string.

(** The collaborators of one run: reading the entry fields (lines 438-445),
    the cached weather file when there is one (line 38), the PVGIS download
    (lines 40-41), [run_simulation] (line 449), and the numbers and chart
    files of [update_gui_results] (lines 456-481). *)
Record Collaborators : Type := {
  read_entries : outcome unit;
  cached_file : option (outcome W);
  pvgis_download : outcome W;
  model_chain : W -> outcome S;
  derive_and_plot : S -> outcome R
}.

(** [get_tmy_data]: a failing download is caught, printed, and turned into
    [None]; reading the cached file is outside the [try]. *)
Definition get_tmy_data (c : Collaborators) : outcome (option W) * list string :=
  match cached_file c with
  | Some (Returns d) => (Returns (Some d), [])
  | Some (Raises e) => (Raises e, [])
  | None =>
      match pvgis_download c with
      | Returns d => (Returns (Some d), [])
      | Raises e => (Returns None, [("Error downloading data: " ++ e)%string])
      end
  end.

Definition simulation_error (e : string) : string :=
  ("An error occurred during simulation: " ++ e)%string.

(** [run_simulation_task]: the queued callback, if any, and what was printed. *)
Definition run_simulation_task (c : Collaborators)
  : option (callback S) * list string :=
  match read_entries c with
  | Raises e => (Some (SimulationFinished "Error"), [simulation_error e])
  | Returns _ =>
      match get_tmy_data c with
      | (Raises e, out) =>
          (Some (SimulationFinished "Error"), out ++ [simulation_error e])
      | (Returns None, out) => (None, out)
      | (Returns (Some tmy_data), out) =>
          match model_chain c tmy_data with
          | Raises e =>
              (Some (SimulationFinished "Error"), out ++ [simulation_error e])
          | Returns sim => (Some (UpdateGuiResults sim), out)
          end
      end
  end.

(** Line 434. *)
Definition start_simulation_thread (g : Gui R) : Gui R :=
  {| run_button_state := disabled;
     run_button_text := "Simulating...";
     export_button_state := export_button_state g;
     system_details_label := system_details_label g;
     simulation_results := simulation_results g;
     console := console g |}.

(** Lines 524-525. *)
Definition simulation_finished (button_text : string) (g : Gui R) : Gui R :=
  {| run_button_state := normal;
     run_button_text := button_text;
     export_button_state := export_button_state g;
     system_details_label := system_details_label g;
     simulation_results := simulation_results g;
     console := console g |}.

(** What [update_gui_results] does to the window (lines 482-522).  An
    exception of lines 456-481 leaves the callback before any widget is
    configured. *)
Definition update_gui_results_window (c : Collaborators) (sim : S) (g : Gui R) : Gui R :=
  match derive_and_plot c sim with
  | Raises _ => g
  | Returns r =>
      let g1 :=
        {| run_button_state := run_button_state g;
           run_button_text := run_button_text g;
           export_button_state := export_button_state g;
           system_details_label :=
             ("Simulated Components: " ++ component_names sim)%string;
           simulation_results := Some r;
           console := console g |} in
      let g2 := simulation_finished "Run Simulation" g1 in
      {| run_button_state := run_button_state g2;
         run_button_text := run_button_text g2;
         export_button_state := normal;
         system_details_label := system_details_label g2;
         simulation_results := simulation_results g2;
         console := console g2 |}
  end.

Definition run_callback (c : Collaborators) (cb : callback S) (g : Gui R) : Gui R :=
  match cb with
  | UpdateGuiResults sim => update_gui_results_window c sim g
  | SimulationFinished button_text => simulation_finished button_text g
  end.

Definition print (out : list string) (g : Gui R) : Gui R :=
  {| run_button_state := run_button_state g;
     run_button_text := run_button_text g;
     export_button_state := export_button_state g;
     system_details_label := system_details_label g;
     simulation_results := simulation_results g;
     console := console g ++ out |}.

(** One press of the run button, up to the point where nothing is queued any
    more. *)
Definition press_run (c : Collaborators) (g : Gui R) : Gui R :=
  let g1 := start_simulation_thread g in
  match run_simulation_task c with
  | (Some cb, out) => run_callback c cb (print out g1)
  | (None, out) => print out g1
  end.

End Run.

(** ** Further chart data *)

Section Charts.
Context {F : Type} `{Number F}.
Local Open Scope num_scope.

(** [Series.sum()] of a resampled series. *)
Definition bins_sum (b : list (Z * F)) : F :=
  fold_left (fun acc p => acc + snd p) b (lit 0).

(** What [create_loss_diagram] draws (lines 135-156): the four bars, the
    heights of the four captions, and the end points of the three dashed
    connectors. *)
Record LossDiagram : Type := {
  bar_values : list F;
  caption_heights : list F;
  connector_levels : list (F * F)
}.

Definition create_loss_diagram (losses : Losses F) : LossDiagram :=
  let start := POA_Energy_kWh losses in
  let dc_loss := DC_System_Loss_kWh losses in
  let inverter_loss := Inverter_Loss_kWh losses in
  let final_yield := Final_AC_Yield_kWh losses in
  {| bar_values := [start; - dc_loss; - inverter_loss; final_yield];
     caption_heights :=
       [start + lit 50; start - dc_loss - lit 50;
        start - dc_loss - inverter_loss - lit 50; final_yield + lit 50];
     connector_levels :=
       [(start, start - dc_loss);
        (start - dc_loss, start - dc_loss - inverter_loss);
        (start - dc_loss - inverter_loss, final_yield)] |}.

End Charts.

(** ** The weather cache on disk ([get_tmy_data], lines 32-45) *)

(** [round(q)] to the nearest integer, ties to even: the rounding of
    [format(x, '.4f')] on the exact value of [x]. *)
Definition round_half_even (q : Q) : Z :=
  let f := Qfloor q in
  match Qcompare (Qminus q (inject_Z f)) (1 # 2) with
  | Lt => f
  | Gt => (f + 1)%Z
  | Eq => if Z.even f then f else (f + 1)%Z
  end.

Definition digit (n : Z) : string :=
  String (Ascii.ascii_of_nat (48 + Z.to_nat (n mod 10))) EmptyString.

Fixpoint decimal_digits (fuel : nat) (n : Z) (acc : string) : string :=
  match fuel with
  | O => acc
  | S fuel' =>
      let acc' := (digit n ++ acc)%string in
      if (n <? 10)%Z then acc' else decimal_digits fuel' (n / 10) acc'
  end.

(** A natural number in decimal. *)
Definition decimal (n : Z) : string :=
  decimal_digits (S (Z.to_nat (Z.log2 n))) n EmptyString.

(** [f'{x:.4f}']. *)
Definition format_4f (x : Q) : string :=
  let n := round_half_even (Qmult (Qabs x) (10000 # 1)) in
  ((if Qle_bool 0 x then "" else "-")
   ++ decimal (n / 10000) ++ "."
   ++ digit (n / 1000) ++ digit (n / 100) ++ digit (n / 10) ++ digit n)%string.

(** Lines 33-36: the name of the cache file inside the data folder.  An empty
    city name counts as none. *)
Definition tmy_file_name (latitude longitude : Q) (city_name : option string) : string :=
  match city_name with
  | Some c =>
      if (c =? "")%string
      then ("tmy_" ++ format_4f latitude ++ "_" ++ format_4f longitude ++ ".csv")%string
      else ("tmy_" ++ c ++ ".csv")%string
  | None => ("tmy_" ++ format_4f latitude ++ "_" ++ format_4f longitude ++ ".csv")%string
  end.

Section Disk.
Variables W File : Type.

(** [DataFrame.to_csv] and [pd.read_csv]. *)
Variable to_csv : W -> File.
Variable read_csv : File -> outcome W.

(** The files of the data folder, by name. *)
Definition disk : Type := string -> option File.

Definition write_file (fs : disk) (name : string) (f : File) : disk :=
  fun n => if (n =? name)%string then Some f else fs n.

(** [get_tmy_data] with the data folder made explicit: the result, what is
    printed, and the folder afterwards.  [pvgis] stands for lines 40-41, the
    download and the writing of the file; when it raises, nothing was
    written.  The folder itself exists ([os.makedirs] succeeded). *)
Definition get_tmy_data_disk (fs : disk) (pvgis : outcome W)
    (latitude longitude : Q) (city_name : option string)
  : outcome (option W) * list string * disk :=
  let file_path := tmy_file_name latitude longitude city_name in
  match fs file_path with
  | Some f =>
      match read_csv f with
      | Returns d => (Returns (Some d), [], fs)
      | Raises e => (Raises e, [], fs)
      end
  | None =>
      match pvgis with
      | Returns d => (Returns (Some d), [], write_file fs file_path (to_csv d))
      | Raises e => (Returns None, [("Error downloading data: " ++ e)%string], fs)
      end
  end.

End Disk.

(** ** Export ([export_to_csv], lines 527-553) *)

Section ExportCsv.
Variable R : Type.

(** [os.path.basename]. *)
Variable basename : string -> string.

Definition set_system_details_label (text : string) (g : Gui R) : Gui R :=
  {| run_button_state := run_button_state g;
     run_button_text := run_button_text g;
     export_button_state := export_button_state g;
     system_details_label := text;
     simulation_results := simulation_results g;
     console := console g |}.

(** [file_path] is what [asksaveasfilename] returns, the empty string when the
    dialog is dismissed; [write] is lines 535-549.  The second component is
    the file that was written in full, if any. *)
Definition export_to_csv (file_path : string) (write : R -> string -> outcome unit)
    (g : Gui R) : Gui R * option (string * R) :=
  match simulation_results g with
  | None => (g, None)
  | Some r =>
      if (file_path =? "")%string then (g, None)
      else
        match write r file_path with
        | Returns _ =>
            (set_system_details_label
               ("Results successfully exported to " ++ basename file_path)%string g,
             Some (file_path, r))
        | Raises e =>
            (set_system_details_label ("Error exporting file: " ++ e)%string g, None)
        end
  end.

End ExportCsv.

(** ** Location widgets ([toggle_mode], [city_selected], lines 402-422) *)

(** A Tk entry: while disabled, [insert] and [delete] leave its text alone. *)
Record Entry : Type := {
  entry_state : widget_state;
  entry_text : string
}.

Definition entry_configure (st : widget_state) (e : Entry) : Entry :=
  {| entry_state := st; entry_text := entry_text e |}.

(** [delete(0, "end")]. *)
Definition entry_delete_all (e : Entry) : Entry :=
  match entry_state e with
  | normal => {| entry_state := normal; entry_text := "" |}
  | disabled => e
  end.

(** [insert(0, s)]. *)
Definition entry_insert_front (s : string) (e : Entry) : Entry :=
  match entry_state e with
  | normal => {| entry_state := normal; entry_text := (s ++ entry_text e)%string |}
  | disabled => e
  end.

Record LocationPanel : Type := {
  mode_selector : string;
  city_combobox_state : widget_state;
  lat_entry : Entry;
  lon_entry : Entry
}.

Definition GERMAN_CITIES : list (string * (Q * Q)) :=
  [("Berlin"%string, (525200 # 10000, 134050 # 10000));
   ("Bonn"%string, (507374 # 10000, 70982 # 10000));
   ("Bremen"%string, (530793 # 10000, 88017 # 10000));
   ("Cologne"%string, (509375 # 10000, 69603 # 10000));
   ("Dresden"%string, (510504 # 10000, 137373 # 10000));
   ("Düsseldorf"%string, (512277 # 10000, 67735 # 10000));
   ("Frankfurt"%string, (501109 # 10000, 86821 # 10000));
   ("Freiburg"%string, (479990 # 10000, 78421 # 10000));
   ("Hamburg"%string, (535511 # 10000, 99937 # 10000));
   ("Hannover"%string, (523759 # 10000, 97320 # 10000));
   ("Heidelberg"%string, (494077 # 10000, 86908 # 10000));
   ("Kiel"%string, (543233 # 10000, 101228 # 10000));
   ("Leipzig"%string, (513397 # 10000, 123731 # 10000));
   ("Munich"%string, (481351 # 10000, 115820 # 10000));
   ("Nuremberg"%string, (494521 # 10000, 110767 # 10000));
   ("Potsdam"%string, (523906 # 10000, 130645 # 10000));
   ("Stuttgart"%string, (487758 # 10000, 91829 # 10000))].

(** [GERMAN_CITIES[city_name]]. *)
Fixpoint city_lookup (table : list (string * (Q * Q))) (city_name : string)
  : option (Q * Q) :=
  match table with
  | [] => None
  | (name, coordinates) :: rest =>
      if (name =? city_name)%string then Some coordinates
      else city_lookup rest city_name
  end.

Definition toggle_mode (value : string) (p : LocationPanel) : LocationPanel :=
  if (value =? "Select City")%string then
    {| mode_selector := mode_selector p;
       city_combobox_state := normal;
       lat_entry := entry_configure disabled (lat_entry p);
       lon_entry := entry_configure disabled (lon_entry p) |}
  else
    {| mode_selector := mode_selector p;
       city_combobox_state := disabled;
       lat_entry := entry_configure normal (lat_entry p);
       lon_entry := entry_configure normal (lon_entry p) |}.

Section CitySelected.

(** [str] on a coordinate. *)
Variable str : Q -> string.

Definition city_selected (city_name : string) (p : LocationPanel)
  : outcome LocationPanel :=
  match city_lookup GERMAN_CITIES city_name with
  | None => Raises "KeyError"
  | Some (lat, lon) =>
      let lat1 := entry_insert_front (str lat)
                    (entry_delete_all (entry_configure normal (lat_entry p))) in
      let lon1 := entry_insert_front (str lon)
                    (entry_delete_all (entry_configure normal (lon_entry p))) in
      if (mode_selector p =? "Select City")%string then
        Returns {| mode_selector := mode_selector p;
                   city_combobox_state := city_combobox_state p;
                   lat_entry := entry_configure disabled lat1;
                   lon_entry := entry_configure disabled lon1 |}
      else
        Returns {| mode_selector := mode_selector p;
                   city_combobox_state := city_combobox_state p;
                   lat_entry := lat1;
                   lon_entry := lon1 |}
  end.

End CitySelected.

(** ** A run for the examples *)

(** Collaborators over numbers: the weather is a number, the simulation adds
    one to it, and the other outcomes are given. *)
Definition demo_collaborators (entries : outcome unit) (cached : option (outcome nat))
    (pvgis : outcome nat) (plots : outcome nat) : Collaborators nat nat nat :=
  {| read_entries := entries;
     cached_file := cached;
     pvgis_download := pvgis;
     model_chain := fun d => Returns (d + 1)%nat;
     derive_and_plot := fun _ => plots |}.

(** ** Theorems *)

Unset Implicit Arguments.

Local Open Scope Q_scope.

Ltac unfold_num :=
  unfold lit in *;
  cbn [num_of_Z num_add num_sub num_mul num_div num_opp num_eqb num_ltb num_leb
       num_isnan Q_Number] in *;
  change (inject_Z 0) with 0 in *;
  change (inject_Z 1) with 1 in *.

(** *** Sums over rational series *)

Lemma series_sum_acc_compat (s : series Q) (a b : Q) :
  a == b ->
  fold_left (fun acc p => num_add acc (snd p)) s a ==
  fold_left (fun acc p => num_add acc (snd p)) s b.
Proof.
  revert a b. induction s as [|p s IH]; intros a b Hab; simpl.
  - exact Hab.
  - apply IH. unfold_num. rewrite Hab. reflexivity.
Qed.

Lemma fold_scaled (s : series Q) (k a : Q) :
  fold_left (fun acc p => num_add acc (snd p)) (series_scale s k) (a * k) ==
  fold_left (fun acc p => num_add acc (snd p)) s a * k.
Proof.
  revert a. induction s as [|p s IH]; intros a; simpl.
  - reflexivity.
  - rewrite <- IH. apply series_sum_acc_compat. unfold_num. ring.
Qed.

Lemma series_sum_scale (s : series Q) (k : Q) :
  series_sum (series_scale s k) == series_sum s * k.
Proof.
  unfold series_sum. rewrite <- fold_scaled.
  apply series_sum_acc_compat. unfold lit. unfold_num. ring.
Qed.

Lemma filter_series_scale (P : timestamp -> bool) (s : series Q) (k : Q) :
  filter (fun p => P (fst p)) (series_scale s k) =
  series_scale (filter (fun p => P (fst p)) s) k.
Proof.
  induction s as [|p s IH]; simpl; [reflexivity|].
  destruct (P (fst p)); simpl; rewrite IH; reflexivity.
Qed.

Lemma months_series_scale (s : series Q) (k : Q) :
  map (fun p => month_index (fst p)) (series_scale s k) =
  map (fun p => month_index (fst p)) s.
Proof.
  unfold series_scale. rewrite map_map. reflexivity.
Qed.

Lemma bins_eq_trans (a b c : list (Z * Q)) :
  bins_eq a b -> bins_eq b c -> bins_eq a c.
Proof.
  intros Hab. revert c. induction Hab as [|x y a b [Hk Hv] _ IH]; intros c Hbc.
  - inversion Hbc. constructor.
  - inversion Hbc as [|y' z b' c' [Hk' Hv'] Hrest]; subst. constructor.
    + split; [congruence | rewrite Hv; exact Hv'].
    + apply IH; assumption.
Qed.

Lemma bins_eq_map (f g : Z -> Q) (ks : list Z) :
  (forall k, f k == g k) ->
  bins_eq (map (fun k => (k, f k)) ks) (map (fun k => (k, g k)) ks).
Proof.
  intros Hfg. induction ks; simpl; constructor; auto. split; [reflexivity | apply Hfg].
Qed.

Lemma bins_div_compat (a b : list (Z * Q)) (d : Q) :
  bins_eq a b -> bins_eq (bins_div a d) (bins_div b d).
Proof.
  induction 1 as [|x y a b [Hk Hv] _ IH]; simpl; constructor; auto.
  split; simpl; [exact Hk | unfold_num; rewrite Hv; reflexivity].
Qed.

(** Resampling a scaled series is scaling the resampled series. *)
Lemma resample_series_scale (s : series Q) (k : Q) :
  bins_eq (resample_ME_sum (series_scale s k)) (bins_mul (resample_ME_sum s) k).
Proof.
  unfold resample_ME_sum. rewrite months_series_scale.
  destruct (map (fun p => month_index (fst p)) s) as [|m ms]; [constructor|].
  unfold bins_mul. rewrite map_map. cbn [fst snd].
  apply bins_eq_map. intros j.
  rewrite (filter_series_scale (fun t => (month_index t =? j)%Z)).
  unfold_num. apply series_sum_scale.
Qed.

Lemma bins_div_mul_swap (b : list (Z * Q)) (k d : Q) :
  bins_eq (bins_div (bins_mul b k) d) (bins_mul (bins_div b d) k).
Proof.
  induction b as [|x b IH]; simpl; constructor; auto.
  split; simpl; [reflexivity|]. unfold_num.
  unfold Qdiv. ring.
Qed.

(** *** The range of months of a series *)

Lemma fold_min_bounds (l : list Z) (a lo : Z) :
  (forall x, In x (a :: l) -> (lo <= x)%Z) -> In lo (a :: l) ->
  fold_left Z.min l a = lo.
Proof.
  revert a. induction l as [|b l IH]; intros a Hlo Hin; simpl.
  - destruct Hin as [E|[]]. exact E.
  - apply IH.
    + intros x [E|Hx].
      * subst x. apply Z.min_glb; apply Hlo; simpl; auto.
      * apply Hlo. simpl. auto.
    + destruct Hin as [E|[E|Hin]].
      * left. subst lo. apply Z.min_l. apply Hlo. simpl; auto.
      * left. subst lo. apply Z.min_r. apply Hlo. simpl; auto.
      * right. exact Hin.
Qed.

Lemma fold_max_bounds (l : list Z) (a hi : Z) :
  (forall x, In x (a :: l) -> (x <= hi)%Z) -> In hi (a :: l) ->
  fold_left Z.max l a = hi.
Proof.
  revert a. induction l as [|b l IH]; intros a Hhi Hin; simpl.
  - destruct Hin as [E|[]]. exact E.
  - apply IH.
    + intros x [E|Hx].
      * subst x. apply Z.max_lub; apply Hhi; simpl; auto.
      * apply Hhi. simpl. auto.
    + destruct Hin as [E|[E|Hin]].
      * left. subst hi. apply Z.max_l. apply Hhi. simpl; auto.
      * left. subst hi. apply Z.max_r. apply Hhi. simpl; auto.
      * right. exact Hin.
Qed.

Lemma resample_months {F : Type} `{Number F} (y : Z) (s : series F) :
  spans_calendar_year y s = true ->
  map fst (resample_ME_sum s) = Zrange (y * 12) 12.
Proof.
  unfold spans_calendar_year. intros Hs.
  apply andb_prop in Hs. destruct Hs as [Hs Hdec].
  apply andb_prop in Hs. destruct Hs as [Hall Hjan].
  rewrite forallb_forall in Hall.
  apply existsb_exists in Hjan. destruct Hjan as [pj [Hpj Hj]].
  apply existsb_exists in Hdec. destruct Hdec as [pd [Hpd Hd]].
  assert (Hrange : forall x, In x (map (fun p => month_index (fst p)) s) ->
                             (y * 12 <= x <= y * 12 + 11)%Z).
  { intros x Hx. apply in_map_iff in Hx. destruct Hx as [p [<- Hp]].
    specialize (Hall p Hp). unfold month_index. lia. }
  assert (Hlo : In (y * 12)%Z (map (fun p => month_index (fst p)) s)).
  { apply in_map_iff. exists pj. split; [|exact Hpj].
    specialize (Hall pj Hpj). unfold month_index. lia. }
  assert (Hhi : In (y * 12 + 11)%Z (map (fun p => month_index (fst p)) s)).
  { apply in_map_iff. exists pd. split; [|exact Hpd].
    specialize (Hall pd Hpd). unfold month_index. lia. }
  unfold resample_ME_sum.
  destruct (map (fun p => month_index (fst p)) s) as [|m ms] eqn:E; [destruct Hlo|].
  rewrite (fold_min_bounds ms m (y * 12)%Z), (fold_max_bounds ms m (y * 12 + 11)%Z);
    try assumption; try (intros x Hx; apply Hrange in Hx; lia).
  rewrite map_map. cbn [fst]. rewrite map_id.
  replace (Z.to_nat (y * 12 + 11 - y * 12 + 1)) with 12%nat by lia.
  reflexivity.
Qed.

Lemma bins_div_months {F : Type} `{Number F} (b : list (Z * F)) (d : F) :
  map fst (bins_div b d) = map fst b.
Proof. unfold bins_div. rewrite map_map. reflexivity. Qed.

Lemma bins_mul_one (b : list (Z * Q)) : bins_eq (bins_mul b 1) b.
Proof.
  induction b; simpl; constructor; auto. split; simpl; [reflexivity|].
  unfold_num. ring.
Qed.

(** *** Claims about the monthly aggregation *)

(** C8, as the code has it: the aggregation sums the samples of each calendar
    month and divides by 1000, which is the sum of [power * dt] for an hourly
    series ([dt] = 1 h); a series that spans one calendar year gives exactly
    the 12 months of that year in order; and one year of hourly samples of a
    constant 1000 W gives, for every month, 1.0 times the hours of that month
    (exact arithmetic and binary64, a common and a leap year). *)
Theorem monthly_aggregation_hourly :
  (forall s : series Q, bins_eq (monthly_yield s) (aggregate_monthly_spec 1 s)) /\
  (forall (y : Z) (s : series Q),
      spans_calendar_year y s = true ->
      List.length (monthly_yield s) = 12%nat /\
      map fst (monthly_yield s) = Zrange (y * 12) 12) /\
  (forall y m : Z, y = 2023%Z \/ y = 2024%Z -> (1 <= m <= 12)%Z ->
      exists kwh,
        nth_error (monthly_yield (hourly_year y (1000 # 1))) (Z.to_nat (m - 1))
          = Some ((y * 12 + (m - 1))%Z, kwh) /\
        kwh == 1 * inject_Z (hours_in_month y m)) /\
  (forall y m : Z, y = 2023%Z \/ y = 2024%Z -> (1 <= m <= 12)%Z ->
      nth_error (monthly_yield (hourly_year y 1000%float)) (Z.to_nat (m - 1))
        = Some ((y * 12 + (m - 1))%Z,
                (1 * float_of_Z (hours_in_month y m))%float)).
Proof.
  split; [|split; [|split]].
  - intros s. unfold monthly_yield, aggregate_monthly_spec.
    apply bins_div_compat.
    assert (Hsym : bins_eq (resample_ME_sum (series_scale s 1)) (resample_ME_sum s)).
    { eapply bins_eq_trans; [apply resample_series_scale | apply bins_mul_one]. }
    clear -Hsym. induction Hsym as [|x z a b [Hk Hv] _ IH]; constructor; auto.
    split; [symmetry; exact Hk | symmetry; exact Hv].
  - intros y s Hs. unfold monthly_yield.
    assert (Hm := resample_months y s Hs). rewrite bins_div_months.
    split; [|exact Hm].
    rewrite <- (length_map fst), bins_div_months, Hm. reflexivity.
  - intros y m Hy Hm.
    assert (Hc : (m = 1 \/ m = 2 \/ m = 3 \/ m = 4 \/ m = 5 \/ m = 6 \/ m = 7 \/
                  m = 8 \/ m = 9 \/ m = 10 \/ m = 11 \/ m = 12)%Z) by lia.
    destruct Hy as [-> | ->];
      repeat (destruct Hc as [-> | Hc]); try subst m;
      (eexists; split; [vm_compute; reflexivity | vm_compute; reflexivity]).
  - intros y m Hy Hm.
    assert (Hc : (m = 1 \/ m = 2 \/ m = 3 \/ m = 4 \/ m = 5 \/ m = 6 \/ m = 7 \/
                  m = 8 \/ m = 9 \/ m = 10 \/ m = 11 \/ m = 12)%Z) by lia.
    destruct Hy as [-> | ->];
      repeat (destruct Hc as [-> | Hc]); try subst m; vm_compute; reflexivity.
Qed.

Lemma monthly_aggregation_hourly_witness :
  spans_calendar_year 2023 (hourly_year 2023 (1000 # 1)) = true /\
  List.length (monthly_yield (hourly_year 2023 (1000 # 1))) = 12%nat /\
  nth_error (monthly_yield (hourly_year 2024 1000%float)) 1
    = Some (24289%Z, 696%float).
Proof.
  split; [vm_compute; reflexivity|]. split.
  - apply (proj1 (proj2 monthly_aggregation_hourly) 2023%Z).
    vm_compute. reflexivity.
  - apply (proj2 (proj2 (proj2 monthly_aggregation_hourly)) 2024%Z 2%Z);
      [right; reflexivity | lia].
Defined.

(** C8, as stated, fails on a sub-hourly series: two half-hour samples of
    1000 W are 1 kWh by [power * dt], and the code reports 2. *)
Lemma half_hourly_series_counted_twice :
  let t := fun minute => {| ts_year := 2023; ts_month := 1; ts_day := 1;
                            ts_hour := 0; ts_minute := minute |} in
  let s := [(t 0%Z, 1000); (t 30%Z, 1000)] in
  ~ bins_eq (monthly_yield s) (aggregate_monthly_spec (1 # 2) s).
Proof.
  intros t s Hb. vm_compute in Hb. inversion Hb as [|x y a b [_ Hv] _]; subst.
  vm_compute in Hv. discriminate Hv.
Qed.

(** C10, as the code has it: in exact arithmetic the monthly totals drawn on
    the chart (scale every sample, then sum per month) and those stored for
    the CSV export (sum per month, then scale) are the same, month by month,
    for every series and slider position; for a series that spans one
    calendar year both have 12 entries. *)
Theorem health_scaling_commutes_with_monthly_sum
    (health_slider specific_yield : Q) (ac_power : series Q)
    (cost price co2_intensity : Q) (lp : LossProportions Q) (rate : Q) :
  let r := update_gui_results health_slider specific_yield ac_power
             cost price co2_intensity lp rate in
  bins_eq (chart_monthly_yield r) (monthly_production r) /\
  (forall y : Z, spans_calendar_year y ac_power = true ->
     List.length (chart_monthly_yield r) = 12%nat /\
     List.length (monthly_production r) = 12%nat).
Proof.
  assert (Heq : bins_eq
                  (chart_monthly_yield
                     (update_gui_results health_slider specific_yield ac_power
                        cost price co2_intensity lp rate))
                  (monthly_production
                     (update_gui_results health_slider specific_yield ac_power
                        cost price co2_intensity lp rate))).
  { cbn. unfold monthly_yield.
    eapply bins_eq_trans.
    - apply bins_div_compat. apply resample_series_scale.
    - apply bins_div_mul_swap. }
  intros r. split; [exact Heq|].
  intros y Hy.
  assert (Hlen : List.length (monthly_production r) = 12%nat).
  { subst r. cbn [monthly_production update_gui_results].
    unfold bins_mul, bins_div. rewrite !length_map.
    rewrite <- (length_map fst), (resample_months y ac_power Hy). reflexivity. }
  split; [|exact Hlen].
  rewrite <- Hlen. exact (Forall2_length Heq).
Qed.

Lemma health_scaling_commutes_with_monthly_sum_witness :
  let r := update_gui_results 95 1000 (hourly_year 2023 (1000 # 1)) 1500 (3 # 10) 434
             (loss_proportions 1200 1100 1000) (5 # 1000) in
  spans_calendar_year 2023 (hourly_year 2023 (1000 # 1)) = true /\
  List.length (chart_monthly_yield r) = 12%nat /\
  List.length (monthly_production r) = 12%nat.
Proof.
  intros r. split; [vm_compute; reflexivity|].
  apply (proj2 (health_scaling_commutes_with_monthly_sum
                  95 1000 (hourly_year 2023 (1000 # 1)) 1500 (3 # 10) 434
                  (loss_proportions 1200 1100 1000) (5 # 1000)) 2023%Z).
  vm_compute. reflexivity.
Defined.

(** C10, as stated, fails: for a series of one sample of 100.5 W and the
    slider at 95 the chart and the export each hold one monthly total, not
    12, and in binary64 the two totals differ (the two orders of evaluation
    round differently). *)
Lemma health_scaling_rounds_differently :
  let t := {| ts_year := 2023; ts_month := 1; ts_day := 1;
              ts_hour := 12; ts_minute := 0 |} in
  let r := update_gui_results 95%float 1000%float [(t, 100.5%float)]
             1500%float 0.25%float 434%float
             (loss_proportions 1200%float 1100%float 1000%float) 0%float in
  List.length (chart_monthly_yield r) = 1%nat /\
  List.length (monthly_production r) = 1%nat /\
  existsb (fun ab => negb (PrimFloat.eqb (snd (fst ab)) (snd (snd ab))))
          (combine (chart_monthly_yield r) (monthly_production r)) = true.
Proof.
  cbv zeta. repeat split; vm_compute; reflexivity.
Qed.

(** *** Claims about the loss ratios and the waterfall *)

(** C7: with [poa >= dc >= ac >= 0] and [poa > 0], each derived ratio lies in
    [[0,1]] and the three ratios sum to one (exact arithmetic). *)
Theorem loss_proportions_unit_interval_sum_one (poa dc ac : Q) :
  0 < poa -> dc <= poa -> ac <= dc -> 0 <= ac ->
  let lp := loss_proportions poa dc ac in
  (0 <= dc_system_loss_ratio lp <= 1) /\
  (0 <= inverter_loss_ratio lp <= 1) /\
  (0 <= final_yield_ratio lp <= 1) /\
  dc_system_loss_ratio lp + inverter_loss_ratio lp + final_yield_ratio lp == 1.
Proof.
  intros Hpoa Hdc Hac H0 lp. subst lp. unfold loss_proportions.
  cbn [dc_system_loss_ratio inverter_loss_ratio final_yield_ratio]. unfold_num.
  assert (Hne : ~ poa == 0) by lra.
  repeat split.
  - apply Qle_shift_div_l; lra.
  - apply Qle_shift_div_r; lra.
  - apply Qle_shift_div_l; lra.
  - apply Qle_shift_div_r; lra.
  - apply Qle_shift_div_l; lra.
  - apply Qle_shift_div_r; lra.
  - field. exact Hne.
Qed.

Lemma loss_proportions_unit_interval_sum_one_witness :
  let lp := loss_proportions (1200 # 1) (1100 # 1) (1000 # 1) in
  (0 <= dc_system_loss_ratio lp <= 1) /\
  (0 <= inverter_loss_ratio lp <= 1) /\
  (0 <= final_yield_ratio lp <= 1) /\
  dc_system_loss_ratio lp + inverter_loss_ratio lp + final_yield_ratio lp == 1.
Proof.
  apply (@loss_proportions_unit_interval_sum_one (1200 # 1) (1100 # 1) (1000 # 1));
    unfold Qlt, Qle; simpl; lia.
Defined.

(** The proportions that [run_simulation] derives sum to one as soon as the
    yield ratio is not zero. *)
Lemma loss_proportions_sum_one (poa dc ac : Q) :
  ~ final_yield_ratio (loss_proportions poa dc ac) == 0 ->
  dc_system_loss_ratio (loss_proportions poa dc ac)
  + inverter_loss_ratio (loss_proportions poa dc ac)
  + final_yield_ratio (loss_proportions poa dc ac) == 1.
Proof.
  cbn. intros Hfy.
  assert (Hpoa : ~ poa == 0).
  { intros E. apply Hfy. unfold Qdiv. rewrite E. change (/ 0) with 0. ring. }
  field. exact Hpoa.
Qed.

Lemma reconstruct_losses_balance (real : Q) (lp : LossProportions Q) :
  dc_system_loss_ratio lp + inverter_loss_ratio lp + final_yield_ratio lp == 1 ->
  0 < final_yield_ratio lp ->
  POA_Energy_kWh (reconstruct_losses real lp)
  - DC_System_Loss_kWh (reconstruct_losses real lp)
  - Inverter_Loss_kWh (reconstruct_losses real lp) == real.
Proof.
  destruct lp as [d i f]. cbn. intros Hsum Hpos.
  assert (Hd : d == 1 - i - f) by lra.
  rewrite Hd. field. lra.
Qed.

(** C1: for loss proportions that sum to one with a positive
    [final_yield_ratio], and any real specific yield, the waterfall is
    [total_input = real / final_yield_ratio], [dc_loss = total_input * dc ratio],
    [inv_loss = total_input * inverter ratio], and
    [total_input - dc_loss - inv_loss] is the real specific yield again; the
    proportions that [run_simulation] returns need only the positive
    [final_yield_ratio] (exact arithmetic). *)
Theorem loss_waterfall_consistent :
  (forall (real : Q) (lp : LossProportions Q),
      dc_system_loss_ratio lp + inverter_loss_ratio lp + final_yield_ratio lp == 1 ->
      0 < final_yield_ratio lp ->
      let w := reconstruct_losses real lp in
      POA_Energy_kWh w = real / final_yield_ratio lp /\
      DC_System_Loss_kWh w = POA_Energy_kWh w * dc_system_loss_ratio lp /\
      Inverter_Loss_kWh w = POA_Energy_kWh w * inverter_loss_ratio lp /\
      Final_AC_Yield_kWh w = real /\
      POA_Energy_kWh w - DC_System_Loss_kWh w - Inverter_Loss_kWh w == real) /\
  (forall (real : Q) (mc : ModelChainResults Q) (module : CECModule Q),
      let lp := snd (run_simulation mc module) in
      0 < final_yield_ratio lp ->
      let w := reconstruct_losses real lp in
      POA_Energy_kWh w - DC_System_Loss_kWh w - Inverter_Loss_kWh w == real).
Proof.
  split.
  - intros real lp Hsum Hpos w. subst w.
    repeat split; try reflexivity.
    apply reconstruct_losses_balance; assumption.
  - intros real mc module lp Hpos w. subst lp w.
    unfold run_simulation in *. cbn [snd] in *.
    apply reconstruct_losses_balance; [|exact Hpos].
    apply loss_proportions_sum_one. lra.
Qed.

Lemma loss_waterfall_consistent_witness :
  let lp := loss_proportions 1200 1100 1000 in
  let w := reconstruct_losses 950 lp in
  dc_system_loss_ratio lp + inverter_loss_ratio lp + final_yield_ratio lp == 1 /\
  0 < final_yield_ratio lp /\
  POA_Energy_kWh w - DC_System_Loss_kWh w - Inverter_Loss_kWh w == 950.
Proof.
  intros lp w. split; [vm_compute; reflexivity|]. split; [vm_compute; reflexivity|].
  apply (proj1 loss_waterfall_consistent 950 lp); vm_compute; reflexivity.
Defined.

(** C6: the annual CO2 saving is [real_specific_yield * intensity / 1000], the
    cumulative projection over the years [0..25] is that figure times the year
    (the same amount is added every year: no degradation), and for a yield of
    1000 and 434 g/kWh the binary64 results are exactly 434.0 a year and
    4340.0 after ten years. *)
Theorem co2_projection_without_degradation
    (health_slider specific_yield : Q) (ac_power : series Q)
    (cost price co2_intensity : Q) (lp : LossProportions Q) (rate : Q) :
  let r := update_gui_results health_slider specific_yield ac_power
             cost price co2_intensity lp rate in
  co2_saved_kg r = real_specific_yield r * co2_intensity / 1000 /\
  List.length (cumulative_co2_saved r) = 26%nat /\
  (forall y : nat, (y <= 25)%nat ->
     nth y (cumulative_co2_saved r) 0 == co2_saved_kg r * inject_Z (Z.of_nat y)) /\
  (forall y : nat, (y < 25)%nat ->
     nth (S y) (cumulative_co2_saved r) 0 - nth y (cumulative_co2_saved r) 0
     == co2_saved_kg r) /\
  annual_co2_saved_kg 1000%float 434%float = 434%float /\
  nth 10 (create_environmental_plot (annual_co2_saved_kg 1000%float 434%float)) 0%float
    = 4340%float.
Proof.
  intros r. subst r. cbn [co2_saved_kg real_specific_yield cumulative_co2_saved
                          update_gui_results].
  set (k := annual_co2_saved_kg _ _).
  split; [reflexivity|]. split; [reflexivity|].
  split; [|split; [|split; vm_compute; reflexivity]].
  - intros y Hy.
    do 26 (destruct y as [|y]; [cbn; unfold_num; ring|]). lia.
  - intros y Hy.
    do 25 (destruct y as [|y]; [cbn; unfold_num; ring|]). lia.
Qed.

Lemma co2_projection_without_degradation_witness :
  nth 10 (create_environmental_plot (annual_co2_saved_kg (1000 * (100 / 100)) 434)) 0
    == 4340.
Proof.
  assert (H := proj1 (proj2 (proj2 (co2_projection_without_degradation
                 100 1000 [] 1500 (3 # 10) 434 (loss_proportions 1200 1100 1000)
                 (5 # 1000)))) 10%nat ltac:(lia)).
  cbn [update_gui_results cumulative_co2_saved co2_saved_kg] in H.
  rewrite H. vm_compute. reflexivity.
Defined.

(** *** The savings loop *)

Lemma savings_loop_length (n : nat) (prev y p r : Q) :
  List.length (savings_loop n prev y p r) = n.
Proof.
  revert prev y. induction n as [|n IH]; intros prev y; simpl; [reflexivity|].
  rewrite IH. reflexivity.
Qed.

Lemma savings_loop_step (i n : nat) (prev y p r : Q) :
  (i < n)%nat ->
  nth (S i) (prev :: savings_loop n prev y p r) 0 =
  nth i (prev :: savings_loop n prev y p r) 0 + current_yield_after i y r * p.
Proof.
  revert n prev y. induction i as [|i IH]; intros n prev y Hi.
  - destruct n as [|n]; [lia|]. reflexivity.
  - destruct n as [|n]; [lia|].
    change (nth (S i) (prev + y * p :: savings_loop n (prev + y * p) (y * (1 - r)) p r) 0 =
            nth i (prev + y * p :: savings_loop n (prev + y * p) (y * (1 - r)) p r) 0
            + current_yield_after i (y * (1 - r)) r * p).
    apply IH. lia.
Qed.

Lemma current_yield_decay (n : nat) (y r : Q) :
  current_yield_after (S n) y r == current_yield_after n y r * (1 - r).
Proof.
  revert y. induction n as [|n IH]; intros y.
  - reflexivity.
  - change (current_yield_after (S n) (y * (1 - r)) r ==
            current_yield_after n (y * (1 - r)) r * (1 - r)).
    apply IH.
Qed.

Lemma current_yield_nonneg (n : nat) (y r : Q) :
  0 <= y -> r <= 1 -> 0 <= current_yield_after n y r.
Proof.
  revert y. induction n as [|n IH]; intros y Hy Hr; simpl; [exact Hy|].
  apply IH; [|exact Hr]. unfold_num.
  apply Qmult_le_0_compat; lra.
Qed.

Lemma current_yield_zero (n : nat) (y r : Q) :
  y == 0 -> current_yield_after n y r == 0.
Proof.
  revert y. induction n as [|n IH]; intros y Hy; simpl; [exact Hy|].
  apply IH. unfold_num. rewrite Hy. ring.
Qed.

Lemma cumulative_savings_length (y p r : Q) :
  List.length (cumulative_savings y p r) = 26%nat.
Proof.
  unfold cumulative_savings. cbn [List.length]. rewrite savings_loop_length. reflexivity.
Qed.

Lemma cumulative_savings_step (i : nat) (y p r : Q) :
  (i < 25)%nat ->
  nth (S i) (cumulative_savings y p r) 0 =
  nth i (cumulative_savings y p r) 0 + current_yield_after i y r * p.
Proof. intros Hi. apply (savings_loop_step i 25 0 y p r Hi). Qed.

Lemma cumulative_savings_monotone (i j : nat) (y p r : Q) :
  0 <= y -> 0 <= p -> r <= 1 -> (i <= j)%nat -> (j <= 25)%nat ->
  nth i (cumulative_savings y p r) 0 <= nth j (cumulative_savings y p r) 0.
Proof.
  intros Hy Hp Hr Hij. induction Hij as [|j Hij IH]; intros Hj.
  - apply Qle_refl.
  - rewrite cumulative_savings_step by lia.
    assert (0 <= current_yield_after j y r * p).
    { apply Qmult_le_0_compat; [apply current_yield_nonneg|]; assumption. }
    assert (Hprev := IH ltac:(lia)). lra.
Qed.

Lemma cumulative_savings_flat (i : nat) (y p r : Q) :
  p == 0 \/ y == 0 -> (i <= 25)%nat ->
  nth i (cumulative_savings y p r) 0 == 0.
Proof.
  intros Hz. induction i as [|i IH]; intros Hi.
  - reflexivity.
  - rewrite cumulative_savings_step by lia. rewrite IH by lia.
    destruct Hz as [Hp|Hy].
    + rewrite Hp. ring.
    + rewrite (current_yield_zero i y r Hy). ring.
Qed.

Lemma remaining_cost_nth (i : nat) (cost y p r : Q) :
  (i <= 25)%nat ->
  nth i (remaining_cost cost y p r) 0 = cost - nth i (cumulative_savings y p r) 0.
Proof.
  intros Hi. unfold remaining_cost.
  rewrite (nth_indep _ 0 (cost - 0)).
  - apply (map_nth (fun s => cost - s)).
  - rewrite length_map, cumulative_savings_length. lia.
Qed.

Lemma remaining_cost_length (cost y p r : Q) :
  List.length (remaining_cost cost y p r) = 26%nat.
Proof. unfold remaining_cost. rewrite length_map. apply cumulative_savings_length. Qed.

(** *** [interp] on rationals *)

Lemma last_as_nth (A : Type) (l : list A) (d : A) :
  last l d = nth (pred (List.length l)) l d.
Proof.
  induction l as [|a l IH]; [reflexivity|].
  destruct l as [|b l]; [reflexivity|].
  change (last (b :: l) d = nth (pred (List.length (b :: l))) (b :: l) d). exact IH.
Qed.

Lemma interp_scan_stops (x : Q) (l : list Q) (i m : nat) :
  (forall k, (k < m)%nat -> nth k l 0 <= x) ->
  (m < List.length l)%nat -> x < nth m l 0 ->
  interp_scan x l i = (i + m)%nat.
Proof.
  revert l i. induction m as [|m IH]; intros l i Hbelow Hlen Habove.
  - destruct l as [|a l]; [simpl in Hlen; lia|]. simpl in *. unfold_num.
    destruct (Qle_bool a x) eqn:E; [|lia].
    apply Qle_bool_iff in E. lra.
  - destruct l as [|a l]; [simpl in Hlen; lia|]. simpl in *. unfold_num.
    destruct (Qle_bool a x) eqn:E.
    + rewrite (IH l (S i)); [lia | | lia | exact Habove].
      intros k Hk. apply (Hbelow (S k)). lia.
    + assert (Ha := Hbelow 0%nat ltac:(lia)). simpl in Ha.
      apply Qle_bool_iff in Ha. congruence.
Qed.

Lemma interp_right (x : Q) (xp fp : list Q) :
  last xp 0 < x -> interp x xp fp = last fp 0.
Proof.
  intros Hlt. unfold interp. unfold_num.
  destruct (Qle_bool x (last xp 0)) eqn:E; [|reflexivity].
  apply Qle_bool_iff in E. lra.
Qed.

Lemma interp_bracket (x : Q) (xp fp : list Q) (j : nat) :
  (S j < List.length xp)%nat ->
  (forall k, (k <= j)%nat -> nth k xp 0 <= x) ->
  x < nth (S j) xp 0 ->
  last xp 0 >= x ->
  interp x xp fp ==
  nth j fp 0 +
  (nth (S j) fp 0 - nth j fp 0) * (x - nth j xp 0) / (nth (S j) xp 0 - nth j xp 0).
Proof.
  intros Hlen Hbelow Habove Hlast.
  assert (Hj := Hbelow j (le_n j)).
  unfold interp. unfold_num.
  destruct (Qle_bool x (last xp 0)) eqn:E1;
    [|apply Qle_bool_iff in Hlast; congruence].
  cbn [negb].
  destruct xp as [|x0 xp']; [simpl in Hlen; lia|].
  cbn [hd tl].
  assert (H0 := Hbelow 0%nat (Nat.le_0_l j)). cbn [nth] in H0.
  apply Qle_bool_iff in H0. rewrite H0. cbn [negb].
  rewrite (interp_scan_stops x xp' 1 j).
  - cbn [Nat.add Nat.pred].
    destruct (Nat.eqb_spec (S j) (List.length (x0 :: xp'))) as [E|_]; [lia|].
    destruct (Qeq_bool (nth j (x0 :: xp') 0) x) eqn:E2.
    + apply Qeq_bool_iff in E2. rewrite E2. field. lra.
    + field. lra.
  - intros k Hk. apply (Hbelow (S k)). lia.
  - simpl in Hlen. lia.
  - exact Habove.
Qed.

Lemma years_nth (y : nat) :
  (y <= 25)%nat -> nth y (years (F:=Q)) 0 = inject_Z (Z.of_nat y).
Proof.
  intros Hy. do 26 (destruct y as [|y]; [reflexivity|]). lia.
Qed.

Lemma opp_remaining_nth (i : nat) (l : list Q) :
  nth i (map Qopp l) 0 = - nth i l 0.
Proof. exact (map_nth Qopp l 0 i). Qed.

Lemma payback_right (cost first price rate : Q) :
  0 < nth 25 (remaining_cost cost first price rate) 0 ->
  create_economic_plot cost first price rate = 25.
Proof.
  intros Hpos. unfold create_economic_plot. unfold_num.
  rewrite interp_right; [reflexivity|].
  rewrite last_as_nth, length_map, remaining_cost_length. cbn [Nat.pred].
  rewrite opp_remaining_nth. lra.
Qed.

(** C3, as the code has it: when the remaining cost is still positive after
    year 25 the solver returns the number 25, the last year of the horizon
    ([np.interp] clamps, it does not extrapolate), and only the marker on the
    chart is left out; so it does for every positive cost when the price or
    the first-year yield is zero. *)
Theorem payback_clamped_at_horizon (cost first price rate : Q) :
  (0 < nth 25 (remaining_cost cost first price rate) 0 ->
   create_economic_plot cost first price rate = 25 /\
   solve_payback cost first price rate = PaybackYears 25 /\
   payback_marker_drawn (create_economic_plot cost first price rate) = false) /\
  (0 < cost -> price == 0 \/ first == 0 ->
   create_economic_plot cost first price rate = 25).
Proof.
  split.
  - intros Hpos. assert (E := payback_right cost first price rate Hpos).
    unfold solve_payback. rewrite E. repeat split; reflexivity.
  - intros Hcost Hz. apply payback_right.
    rewrite remaining_cost_nth by lia.
    rewrite (cumulative_savings_flat 25 first price rate Hz) by lia. lra.
Qed.

Lemma payback_clamped_at_horizon_witness :
  0 < nth 25 (remaining_cost 1500 1100 0 (5 # 1000)) 0 /\
  create_economic_plot 1500 1100 0 (5 # 1000) = 25 /\
  create_economic_plot 1500 0 (3 # 10) (5 # 1000) = 25.
Proof.
  split; [vm_compute; reflexivity|]. split.
  - apply (proj1 (payback_clamped_at_horizon 1500 1100 0 (5 # 1000))).
    vm_compute. reflexivity.
  - apply (proj2 (payback_clamped_at_horizon 1500 0 (3 # 10) (5 # 1000))).
    + vm_compute. reflexivity.
    + right. reflexivity.
Defined.

(** C4: cumulative savings start at zero and grow each year by that year's
    yield times the price, the yield decaying by the factor
    [1 - degradation_rate]; the remaining cost is the cost minus the savings;
    between the two integer years that bracket its zero the payback is the
    linear interpolant; and for cost 1500, yield 1100, price 0.30 and rate
    0.005 it lies within 0.05 of [1500 / (1100 * 0.30)], between years 4 and
    5 (in binary64 as well). *)
Theorem payback_by_linear_interpolation :
  (forall (first price rate : Q) (y : nat),
      (y < 25)%nat ->
      nth 0 (cumulative_savings first price rate) 0 = 0 /\
      nth (S y) (cumulative_savings first price rate) 0 =
        nth y (cumulative_savings first price rate) 0
        + current_yield_after y first rate * price /\
      current_yield_after 0 first rate = first /\
      current_yield_after (S y) first rate ==
        current_yield_after y first rate * (1 - rate)) /\
  (forall (cost first price rate : Q) (y : nat),
      (y <= 25)%nat ->
      nth y (remaining_cost cost first price rate) 0 =
        cost - nth y (cumulative_savings first price rate) 0) /\
  (forall (cost first price rate : Q) (y : nat),
      0 <= first -> 0 <= price -> rate <= 1 -> (y < 25)%nat ->
      0 <= nth y (remaining_cost cost first price rate) 0 ->
      nth (S y) (remaining_cost cost first price rate) 0 < 0 ->
      create_economic_plot cost first price rate ==
        inject_Z (Z.of_nat y)
        + nth y (remaining_cost cost first price rate) 0
          / (nth y (remaining_cost cost first price rate) 0
             - nth (S y) (remaining_cost cost first price rate) 0)) /\
  (let p := create_economic_plot 1500 1100 (3 # 10) (5 # 1000) in
   Qabs (p - 1500 / (1100 * (3 # 10))) < 1 # 20 /\
   Qabs (p - (45 # 10)) < 1 # 10 /\
   nth 4 (remaining_cost 1500 1100 (3 # 10) (5 # 1000)) 0 > 0 /\
   nth 5 (remaining_cost 1500 1100 (3 # 10) (5 # 1000)) 0 < 0) /\
  (let p := create_economic_plot 1500%float 1100%float
             0x1.3333333333333p-2%float 0x1.47ae147ae147bp-8%float in
   (4.5 <? p)%float = true /\ (p <? 4.625)%float = true).
Proof.
  split; [|split; [|split; [|split]]].
  - intros first price rate y Hy. repeat split.
    + apply cumulative_savings_step. exact Hy.
    + apply current_yield_decay.
  - intros cost first price rate y Hy. apply remaining_cost_nth. exact Hy.
  - intros cost first price rate y Hf Hp Hr Hy Hge Hlt.
    set (rem := remaining_cost cost first price rate) in *.
    assert (Hmono : forall i j, (i <= j)%nat -> (j <= 25)%nat ->
                                nth j rem 0 <= nth i rem 0).
    { intros i j Hij Hj. unfold rem. rewrite !remaining_cost_nth by lia.
      assert (Hc := cumulative_savings_monotone i j first price rate Hf Hp Hr Hij Hj).
      lra. }
    unfold create_economic_plot. fold rem. unfold_num.
    rewrite (interp_bracket 0 (map Qopp rem) years y).
    + rewrite !opp_remaining_nth, !years_nth by lia.
      rewrite Nat2Z.inj_succ, <- Z.add_1_r, inject_Z_plus.
      change (inject_Z 1) with 1. field. lra.
    + rewrite length_map. unfold rem. rewrite remaining_cost_length. lia.
    + intros k Hk. rewrite opp_remaining_nth.
      assert (Hm := Hmono k y Hk ltac:(lia)). lra.
    + rewrite opp_remaining_nth. lra.
    + rewrite last_as_nth, length_map. unfold rem at 1.
      rewrite remaining_cost_length. cbn [Nat.pred]. rewrite opp_remaining_nth.
      assert (Hm := Hmono (S y) 25%nat ltac:(lia) ltac:(lia)). lra.
  - cbv zeta. repeat split; vm_compute; reflexivity.
  - cbv zeta. split; vm_compute; reflexivity.
Qed.

Lemma payback_by_linear_interpolation_witness :
  0 <= nth 4 (remaining_cost 1500 1100 (3 # 10) (5 # 1000)) 0 /\
  nth 5 (remaining_cost 1500 1100 (3 # 10) (5 # 1000)) 0 < 0 /\
  create_economic_plot 1500 1100 (3 # 10) (5 # 1000) ==
    inject_Z 4
    + nth 4 (remaining_cost 1500 1100 (3 # 10) (5 # 1000)) 0
      / (nth 4 (remaining_cost 1500 1100 (3 # 10) (5 # 1000)) 0
         - nth 5 (remaining_cost 1500 1100 (3 # 10) (5 # 1000)) 0).
Proof.
  split; [vm_compute; discriminate|]. split; [vm_compute; reflexivity|].
  apply (proj1 (proj2 (proj2 payback_by_linear_interpolation))
           1500 1100 (3 # 10) (5 # 1000) 4%nat).
  - vm_compute; discriminate.
  - vm_compute; discriminate.
  - vm_compute; discriminate.
  - lia.
  - vm_compute; discriminate.
  - vm_compute; reflexivity.
Defined.

(** C3, as stated, fails: with a zero price the remaining cost stays positive
    and the solver reports the numeric year 25, not "no payback within
    horizon" (exact arithmetic and binary64). *)
Lemma payback_zero_price_is_numeric :
  0 < nth 25 (remaining_cost 1500 1100 0 (5 # 1000)) 0 /\
  solve_payback 1500 1100 0 (5 # 1000) <> NoPaybackWithinHorizon /\
  solve_payback 1500%float 1100%float 0%float 0x1.47ae147ae147bp-8%float
    = PaybackYears 25%float.
Proof.
  split; [vm_compute; reflexivity|]. split; [discriminate|].
  vm_compute. reflexivity.
Qed.

(** *** Binary64 facts *)

Lemma SFeqb_finite_refl (s : bool) (m : positive) (e : Z) :
  SFeqb (S754_finite s m e) (S754_finite s m e) = true.
Proof.
  unfold SFeqb, SFcompare.
  destruct s; rewrite Z.compare_refl, Pos.compare_cont_refl; reflexivity.
Qed.

Lemma is_finite_spec (x : float) :
  is_finite x = negb (SF_nonfinite (Prim2SF x)).
Proof.
  unfold is_finite, is_nan, is_infinity.
  rewrite !eqb_spec, abs_spec.
  change (Prim2SF infinity) with (S754_infinity false).
  destruct (Prim2SF x) as [s| s| |s m e];
    try reflexivity; try (destruct s; reflexivity).
  rewrite SFeqb_finite_refl. destruct s; reflexivity.
Qed.

Lemma is_nan_spec (x : float) :
  is_nan x = match Prim2SF x with S754_nan => true | _ => false end.
Proof.
  unfold is_nan. rewrite eqb_spec.
  destruct (Prim2SF x) as [s| s| |s m e]; try reflexivity; try (destruct s; reflexivity).
  rewrite SFeqb_finite_refl. reflexivity.
Qed.

Lemma eqb_zero_spec (x : float) :
  (x =? 0)%float = true -> exists s, Prim2SF x = S754_zero s.
Proof.
  rewrite eqb_spec. change (Prim2SF 0%float) with (S754_zero false).
  destruct (Prim2SF x) as [s| s| |s m e]; intros E.
  - exists s. reflexivity.
  - destruct s; discriminate E.
  - discriminate E.
  - destruct s; discriminate E.
Qed.

Lemma div_by_zero_nonfinite (x y : float) :
  (y =? 0)%float = true -> is_finite (x / y) = false.
Proof.
  intros Hy. destruct (eqb_zero_spec y Hy) as [s Hs].
  rewrite is_finite_spec, div_spec, Hs.
  destruct (Prim2SF x); reflexivity.
Qed.

Lemma zero_div_zero_nan (x y : float) :
  (x =? 0)%float = true -> (y =? 0)%float = true -> is_nan (x / y) = true.
Proof.
  intros Hx Hy. destruct (eqb_zero_spec x Hx) as [sx Hsx].
  destruct (eqb_zero_spec y Hy) as [sy Hsy].
  rewrite is_nan_spec, div_spec, Hsx, Hsy. reflexivity.
Qed.

Lemma mul_nonfinite (x y : float) :
  is_finite x = false -> is_finite (x * y) = false.
Proof.
  rewrite !is_finite_spec, mul_spec.
  destruct (Prim2SF x); try discriminate; intros _; destruct (Prim2SF y); reflexivity.
Qed.

(** C2, as the code has it: with a zero [final_yield_ratio] the reconstruction
    returns (no exception), and what it returns is not finite: the total
    input is [nan] or an infinity ([nan] when the real yield is zero too) and
    so are both losses derived from it (binary64). *)
Theorem zero_final_yield_ratio_propagates_nonfinite
    (real : float) (lp : LossProportions float) :
  (final_yield_ratio lp =? 0)%float = true ->
  exists w,
    reconstruct_losses_outcome real lp = Returns w /\
    is_finite (POA_Energy_kWh w) = false /\
    is_finite (DC_System_Loss_kWh w) = false /\
    is_finite (Inverter_Loss_kWh w) = false /\
    ((real =? 0)%float = true -> is_nan (POA_Energy_kWh w) = true).
Proof.
  intros Hz. exists (reconstruct_losses real lp). split; [reflexivity|].
  cbn. assert (Hpoa := div_by_zero_nonfinite real _ Hz).
  repeat split.
  - exact Hpoa.
  - apply mul_nonfinite. exact Hpoa.
  - apply mul_nonfinite. exact Hpoa.
  - intros Hr. apply zero_div_zero_nan; assumption.
Qed.

Lemma zero_final_yield_ratio_propagates_nonfinite_witness :
  (final_yield_ratio (loss_proportions 1200 1100 0) =? 0)%float = true /\
  exists w,
    reconstruct_losses_outcome 0%float (loss_proportions 1200%float 1100%float 0%float)
      = Returns w /\
    is_finite (POA_Energy_kWh w) = false /\
    is_finite (DC_System_Loss_kWh w) = false /\
    is_finite (Inverter_Loss_kWh w) = false /\
    ((0 =? 0)%float = true -> is_nan (POA_Energy_kWh w) = true).
Proof.
  split; [vm_compute; reflexivity|].
  apply (zero_final_yield_ratio_propagates_nonfinite
           0%float (loss_proportions 1200%float 1100%float 0%float)).
  vm_compute. reflexivity.
Defined.

(** C2, as stated, fails: for a simulation with no AC energy the ratio is zero,
    no "degenerate simulation result" error is raised, and the total input of
    the waterfall is [nan]. *)
Lemma zero_final_yield_ratio_raises_nothing :
  (final_yield_ratio (loss_proportions 1200 1100 0) =? 0)%float = true /\
  reconstruct_losses_outcome 0%float (loss_proportions 1200%float 1100%float 0%float)
    <> Raises "DegenerateSimulationError" /\
  is_nan (POA_Energy_kWh
            (reconstruct_losses 0%float
               (loss_proportions 1200%float 1100%float 0%float))) = true.
Proof.
  split; [vm_compute; reflexivity|]. split; [discriminate|].
  vm_compute. reflexivity.
Qed.

(** *** Rescaling *)

Lemma series_scale_nth {F : Type} `{Number F}
    (s : series F) (k : F) (i : nat) (t : timestamp) (w : F) :
  nth_error s i = Some (t, w) ->
  nth_error (series_scale s k) i = Some (t, num_mul w k).
Proof.
  intros Hi. unfold series_scale. rewrite nth_error_map, Hi. reflexivity.
Qed.

Lemma series_scale_index {F : Type} `{Number F} (s : series F) (k : F) :
  map fst (series_scale s k) = map fst s.
Proof. unfold series_scale. rewrite map_map. reflexivity. Qed.

Lemma series_scale_additive (s : series Q) (h1 h2 : Q) :
  series_eq (series_scale s (h1 + h2))
            (series_plus (series_scale s h1) (series_scale s h2)).
Proof.
  induction s as [|p s IH]; simpl; constructor; [|exact IH].
  split; simpl; [reflexivity|]. unfold_num. ring.
Qed.

Lemma series_scale_homogeneous (s : series Q) (c h : Q) :
  series_eq (series_scale s (c * h)) (series_scale (series_scale s h) c).
Proof.
  induction s as [|p s IH]; simpl; constructor; [|exact IH].
  split; simpl; [reflexivity|]. unfold_num. ring.
Qed.

Lemma slider_fraction_range (health_slider : Q) :
  70 <= health_slider <= 100 -> 7 # 10 <= slider_fraction health_slider <= 1.
Proof.
  intros [Hlo Hhi]. unfold slider_fraction. unfold_num.
  split; [apply Qle_shift_div_l | apply Qle_shift_div_r]; try reflexivity;
    unfold inject_Z; lra.
Qed.

(** C5: in any arithmetic (binary64 included) the real specific yield is the
    raw one times the health factor, and the series that is charted is the
    raw series with every sample times that factor, time stamps and order
    kept; for a slider position in [[70,100]] the factor lies in
    [[0.70,1.00]]; and yield and series are linear in the factor (exact
    arithmetic). *)
Theorem rescale_by_health :
  (forall (F : Type) (N : Number F) (health_slider specific_yield : F)
          (ac_power : series F) (cost price co2_intensity : F)
          (lp : LossProportions F) (rate : F),
      let health := slider_fraction health_slider in
      let r := update_gui_results health_slider specific_yield ac_power
                 cost price co2_intensity lp rate in
      real_specific_yield r = num_mul specific_yield health /\
      chart_monthly_yield r =
        monthly_yield (snd (rescale specific_yield ac_power health)) /\
      map fst (snd (rescale specific_yield ac_power health)) = map fst ac_power /\
      (forall i t w, nth_error ac_power i = Some (t, w) ->
         nth_error (snd (rescale specific_yield ac_power health)) i
           = Some (t, num_mul w health))) /\
  (forall health_slider : Q,
      70 <= health_slider <= 100 -> 7 # 10 <= slider_fraction health_slider <= 1) /\
  (forall (specific_yield : Q) (ac_power : series Q) (h1 h2 : Q),
      fst (rescale specific_yield ac_power (h1 + h2)) ==
        fst (rescale specific_yield ac_power h1)
        + fst (rescale specific_yield ac_power h2) /\
      series_eq (snd (rescale specific_yield ac_power (h1 + h2)))
                (series_plus (snd (rescale specific_yield ac_power h1))
                             (snd (rescale specific_yield ac_power h2)))) /\
  (forall (specific_yield : Q) (ac_power : series Q) (c h : Q),
      fst (rescale specific_yield ac_power (c * h)) ==
        c * fst (rescale specific_yield ac_power h) /\
      series_eq (snd (rescale specific_yield ac_power (c * h)))
                (series_scale (snd (rescale specific_yield ac_power h)) c)).
Proof.
  split; [|split; [|split]].
  - intros F N health_slider specific_yield ac_power cost price co2_intensity lp rate
           health r.
    subst health r. repeat split.
    + apply series_scale_index.
    + intros i t w Hi. cbn [snd rescale]. apply series_scale_nth. exact Hi.
  - exact slider_fraction_range.
  - intros specific_yield ac_power h1 h2. cbn [fst snd rescale]. split.
    + unfold_num. ring.
    + apply series_scale_additive.
  - intros specific_yield ac_power c h. cbn [fst snd rescale]. split.
    + unfold_num. ring.
    + apply series_scale_homogeneous.
Qed.

Lemma rescale_by_health_witness :
  70 <= 95 <= 100 /\
  7 # 10 <= slider_fraction 95 <= 1 /\
  nth_error (snd (rescale 1000%float
                    [({| ts_year := 2023; ts_month := 7; ts_day := 15;
                         ts_hour := 12; ts_minute := 0 |}, 800%float)]
                    (slider_fraction 95%float))) 0
    = Some ({| ts_year := 2023; ts_month := 7; ts_day := 15;
               ts_hour := 12; ts_minute := 0 |},
            (800 * (95 / 100))%float).
Proof.
  split; [split; vm_compute; discriminate|]. split.
  - apply (proj1 (proj2 rescale_by_health) 95).
    split; vm_compute; discriminate.
  - apply (proj1 rescale_by_health float float_Number 95%float 1000%float
             [({| ts_year := 2023; ts_month := 7; ts_day := 15;
                  ts_hour := 12; ts_minute := 0 |}, 800%float)]
             1500%float 0.25%float 434%float
             (loss_proportions 1200%float 1100%float 1000%float) 0%float).
    reflexivity.
Defined.

(** *** The run *)

Section RunFacts.
Context {W S R : Type}.
Variable component_names : S -> string.

(** X20: an exception caught by the [try] of [run_simulation_task] (reading
    the entries, reading the cached file, or the simulation) brings the run
    button back, labelled "Error", prints the error, and leaves the stored
    results and the export button alone. *)
Lemma caught_exception_reenables_run (c : Collaborators W S R) (g : Gui R) (e : string) :
  read_entries c = Raises e \/
  (read_entries c = Returns tt /\ cached_file c = Some (Raises e)) \/
  (exists d, read_entries c = Returns tt /\ fst (get_tmy_data c) = Returns (Some d) /\
             model_chain c d = Raises e) ->
  let g' := press_run component_names c g in
  run_button_state g' = normal /\
  run_button_text g' = "Error"%string /\
  simulation_results g' = simulation_results g /\
  export_button_state g' = export_button_state g /\
  In (simulation_error e) (console g').
Proof.
  intros Hc g'. subst g'. unfold press_run, run_simulation_task.
  destruct Hc as [Hr | [[Hr Hf] | [d [Hr [Hf Hm]]]]]; rewrite Hr.
  - cbn. repeat split; try reflexivity. apply in_or_app. right. left. reflexivity.
  - unfold get_tmy_data. rewrite Hf. cbn. repeat split; try reflexivity.
    apply in_or_app. right. left. reflexivity.
  - destruct (get_tmy_data c) as [o out]. cbn in Hf. subst o. rewrite Hm. cbn.
    repeat split; try reflexivity.
    apply in_or_app. right. apply in_or_app. right. left. reflexivity.
Qed.

(** X21: an exception of [update_gui_results] itself is outside that [try]:
    when the charts cannot be made, whether the weather came from the cached
    file or from a download, the run button stays disabled on "Simulating..."
    and the stored results are as before. *)
Lemma plotting_exception_leaves_run_disabled
    (c : Collaborators W S R) (g : Gui R) (d : W) (sim : S) (e : string) :
  read_entries c = Returns tt -> fst (get_tmy_data c) = Returns (Some d) ->
  model_chain c d = Returns sim -> derive_and_plot c sim = Raises e ->
  run_button_state (press_run component_names c g) = disabled /\
  run_button_text (press_run component_names c g) = "Simulating..."%string /\
  simulation_results (press_run component_names c g) = simulation_results g.
Proof.
  intros Hr Hf Hm Hp. unfold press_run, run_simulation_task.
  rewrite Hr. destruct (get_tmy_data c) as [o out]. cbn in Hf. subst o.
  rewrite Hm. cbn. unfold update_gui_results_window. rewrite Hp.
  repeat split; reflexivity.
Qed.

(** C9 at the failing input: when there is no cached weather file and the
    download fails, [get_tmy_data] returns [None], nothing is queued for the
    window, and the run button stays disabled with the text "Simulating...";
    the status line is unchanged. *)
Theorem failed_download_leaves_run_disabled
    (mc : W -> outcome S) (dp : S -> outcome R) (g : Gui R) (e : string) :
  let c := {| read_entries := Returns tt;
              cached_file := None;
              pvgis_download := Raises e;
              model_chain := mc;
              derive_and_plot := dp |} in
  let g' := press_run component_names c g in
  run_simulation_task c = (None, [("Error downloading data: " ++ e)%string]) /\
  run_button_state g' = disabled /\
  run_button_text g' = "Simulating..."%string /\
  system_details_label g' = system_details_label g /\
  simulation_results g' = simulation_results g.
Proof.
  cbn. repeat split; reflexivity.
Qed.

End RunFacts.

(** *** Where [interp] lands *)

Lemma interp_scan_spec (x : Q) (l : list Q) (i : nat) :
  (i <= interp_scan x l i <= i + List.length l)%nat /\
  (forall k, (k < interp_scan x l i - i)%nat -> nth k l 0 <= x) /\
  ((interp_scan x l i - i < List.length l)%nat ->
   x < nth (interp_scan x l i - i) l 0).
Proof.
  revert i. induction l as [|a l IH]; intros i; simpl.
  - repeat split; lia.
  - unfold_num. destruct (Qle_bool a x) eqn:E.
    + destruct (IH (S i)) as [[Hlo Hhi] [Hbelow Habove]].
      split; [lia|]. split.
      * intros k Hk. destruct k as [|k].
        -- apply Qle_bool_iff. exact E.
        -- apply Hbelow. lia.
      * intros Hlt.
        replace (interp_scan x l (S i) - i)%nat
          with (S (interp_scan x l (S i) - S i)) in * by lia.
        apply Habove. lia.
    + split; [lia|]. split.
      * intros k Hk. lia.
      * intros _. replace (i - i)%nat with 0%nat by lia.
        assert (Hn : ~ a <= x).
        { intros Hle. apply Qle_bool_iff in Hle. congruence. }
        apply Qnot_le_lt. exact Hn.
Qed.

(** Inside the range of [xp], [interp] sits on the chord of a segment
    [j, j+1] that holds [x], or on the last point. *)
Lemma interp_located (x : Q) (xp fp : list Q) :
  xp <> [] -> ~ last xp 0 < x -> ~ x < hd 0 xp ->
  exists j : nat,
    (j < List.length xp)%nat /\
    nth j xp 0 <= x /\
    ((S j < List.length xp)%nat -> x < nth (S j) xp 0) /\
    ((S j = List.length xp)%nat -> interp x xp fp = nth j fp 0) /\
    ((S j < List.length xp)%nat ->
     interp x xp fp ==
     nth j fp 0 +
     (nth (S j) fp 0 - nth j fp 0) * (x - nth j xp 0) / (nth (S j) xp 0 - nth j xp 0)).
Proof.
  intros Hne Hlast Hhd.
  destruct xp as [|x0 xp']; [congruence|]. clear Hne.
  destruct (interp_scan_spec x xp' 1) as [[Hlo Hhi] [Hbelow Habove]].
  set (r := interp_scan x xp' 1) in *.
  exists (pred r).
  assert (Hj : forall k, nth (S k) (x0 :: xp') 0 = nth k xp' 0) by reflexivity.
  assert (Hxj : nth (pred r) (x0 :: xp') 0 <= x).
  { destruct r as [|[|r]]; [lia| |].
    - cbn. cbn in Hhd. apply Qnot_lt_le. exact Hhd.
    - cbn [Nat.pred]. rewrite Hj. apply Hbelow. lia. }
  assert (Hnext : (S (pred r) < List.length (x0 :: xp'))%nat ->
                  x < nth (S (pred r)) (x0 :: xp') 0).
  { intros Hlt. cbn [List.length] in Hlt. rewrite Hj.
    replace (pred r) with (r - 1)%nat by lia. apply Habove. lia. }
  split; [cbn [List.length]; lia|]. split; [exact Hxj|]. split; [exact Hnext|].
  assert (Hunfold :
    interp x (x0 :: xp') fp =
    (if (S (pred r) =? List.length (x0 :: xp'))%nat then nth (pred r) fp 0
     else if Qeq_bool (nth (pred r) (x0 :: xp') 0) x then nth (pred r) fp 0
     else (nth (S (pred r)) fp 0 - nth (pred r) fp 0)
          / (nth (S (pred r)) (x0 :: xp') 0 - nth (pred r) (x0 :: xp') 0)
          * (x - nth (pred r) (x0 :: xp') 0) + nth (pred r) fp 0)).
  { unfold interp. unfold_num. fold r.
    destruct (Qle_bool x (last (x0 :: xp') 0)) eqn:E1.
    - cbn [negb hd tl].
      destruct (Qle_bool x0 x) eqn:E2; [reflexivity|].
      exfalso. apply Hhd. cbn. apply Qnot_le_lt. intros Hle.
      apply Qle_bool_iff in Hle. congruence.
    - exfalso. apply Hlast. apply Qnot_le_lt. intros Hle.
      apply Qle_bool_iff in Hle. congruence. }
  split.
  - intros Hend. rewrite Hunfold.
    destruct (Nat.eqb_spec (S (pred r)) (List.length (x0 :: xp'))); [reflexivity|lia].
  - intros Hlt. rewrite Hunfold. specialize (Hnext Hlt).
    destruct (Nat.eqb_spec (S (pred r)) (List.length (x0 :: xp'))); [lia|].
    destruct (Qeq_bool (nth (pred r) (x0 :: xp') 0) x) eqn:E2.
    + apply Qeq_bool_iff in E2. rewrite E2. field. lra.
    + field. lra.
Qed.

(** The three ways [create_economic_plot] can end. *)
Lemma payback_located (cost first price rate : Q) :
  (0 < nth 25 (remaining_cost cost first price rate) 0 /\
   create_economic_plot cost first price rate = 25) \/
  (cost < 0 /\ create_economic_plot cost first price rate = 0) \/
  (exists j : nat,
      (j <= 25)%nat /\
      0 <= nth j (remaining_cost cost first price rate) 0 /\
      ((j < 25)%nat -> nth (S j) (remaining_cost cost first price rate) 0 < 0) /\
      ((j = 25)%nat -> create_economic_plot cost first price rate = 25) /\
      ((j < 25)%nat ->
       create_economic_plot cost first price rate ==
         inject_Z (Z.of_nat j)
         + nth j (remaining_cost cost first price rate) 0
           / (nth j (remaining_cost cost first price rate) 0
              - nth (S j) (remaining_cost cost first price rate) 0))).
Proof.
  set (rem := remaining_cost cost first price rate).
  assert (Hlen : List.length (map Qopp rem) = 26%nat).
  { rewrite length_map. apply remaining_cost_length. }
  assert (Hlastx : last (map Qopp rem) 0 = - nth 25 rem 0).
  { rewrite last_as_nth, Hlen. cbn [Nat.pred]. apply opp_remaining_nth. }
  assert (Hhdx : hd 0 (map Qopp rem) = - (cost - 0)) by reflexivity.
  destruct (Qlt_le_dec 0 (nth 25 rem 0)) as [Hpos | Hnpos].
  { left. split; [exact Hpos|]. apply payback_right. exact Hpos. }
  destruct (Qlt_le_dec cost 0) as [Hneg | Hnneg].
  { right. left. split; [exact Hneg|].
    unfold create_economic_plot. fold rem. unfold interp. unfold_num.
    rewrite Hlastx, Hhdx.
    destruct (Qle_bool 0 (- nth 25 rem 0)) eqn:E1.
    - cbn [negb]. destruct (Qle_bool (- (cost - 0)) 0) eqn:E2.
      + apply Qle_bool_iff in E2. lra.
      + reflexivity.
    - assert (Hle : 0 <= - nth 25 rem 0) by lra.
      apply Qle_bool_iff in Hle. congruence. }
  right. right.
  destruct (interp_located 0 (map Qopp rem) years) as [j [Hj [Hxj [Hnext [Hend Hmid]]]]].
  - intros E. rewrite E in Hlen. discriminate Hlen.
  - rewrite Hlastx. lra.
  - rewrite Hhdx. lra.
  - rewrite Hlen in *. exists j. split; [lia|].
    rewrite opp_remaining_nth in Hxj. split; [lra|]. split; [|split].
    + intros Hlt. specialize (Hnext ltac:(lia)). rewrite opp_remaining_nth in Hnext. lra.
    + intros E. unfold create_economic_plot. fold rem. unfold_num.
      rewrite Hend by lia. subst j. reflexivity.
    + intros Hlt. specialize (Hnext ltac:(lia)). specialize (Hmid ltac:(lia)).
      unfold create_economic_plot. fold rem. unfold_num. rewrite Hmid.
      rewrite !opp_remaining_nth in *. rewrite !years_nth by lia.
      rewrite Nat2Z.inj_succ, <- Z.add_1_r, inject_Z_plus.
      change (inject_Z 1) with 1. field. lra.
Qed.

Lemma payback_within_horizon_aux (cost first price rate : Q) :
  0 <= create_economic_plot cost first price rate <= 25.
Proof.
  destruct (payback_located cost first price rate)
    as [[_ E] | [[_ E] | [j [Hj [Hge [Hnext [Hend Hmid]]]]]]].
  - rewrite E. split; [discriminate | apply Qle_refl].
  - rewrite E. split; [apply Qle_refl | discriminate].
  - destruct (Nat.eq_dec j 25) as [E|Hne].
    + rewrite (Hend E). split; [discriminate | apply Qle_refl].
    + assert (Hlt : (j < 25)%nat) by lia.
      specialize (Hnext Hlt). rewrite (Hmid Hlt).
      set (a := nth j (remaining_cost cost first price rate) 0) in *.
      set (b := nth (S j) (remaining_cost cost first price rate) 0) in *.
      assert (Hfrac : 0 <= a / (a - b) <= 1).
      { split; [apply Qle_shift_div_l | apply Qle_shift_div_r]; lra. }
      assert (Hj0 : 0 <= inject_Z (Z.of_nat j)).
      { change 0 with (inject_Z 0). rewrite <- Zle_Qle. lia. }
      assert (Hj1 : inject_Z (Z.of_nat j) <= 24).
      { change 24 with (inject_Z 24). rewrite <- Zle_Qle. lia. }
      lra.
Qed.

(** *** Order and closed forms of the payback *)

Lemma payback_segment (cost first price rate : Q) (j : nat) :
  (j < 25)%nat ->
  0 <= nth j (remaining_cost cost first price rate) 0 ->
  nth (S j) (remaining_cost cost first price rate) 0 < 0 ->
  inject_Z (Z.of_nat j) <=
    inject_Z (Z.of_nat j)
    + nth j (remaining_cost cost first price rate) 0
      / (nth j (remaining_cost cost first price rate) 0
         - nth (S j) (remaining_cost cost first price rate) 0)
    <= inject_Z (Z.of_nat j) + 1.
Proof.
  intros Hj Hge Hlt.
  set (a := nth j (remaining_cost cost first price rate) 0) in *.
  set (b := nth (S j) (remaining_cost cost first price rate) 0) in *.
  assert (Hfrac : 0 <= a / (a - b) <= 1).
  { split; [apply Qle_shift_div_l | apply Qle_shift_div_r]; lra. }
  lra.
Qed.

Lemma inject_nat_le (i j : nat) : (i <= j)%nat -> inject_Z (Z.of_nat i) <= inject_Z (Z.of_nat j).
Proof. intros H. rewrite <- Zle_Qle. lia. Qed.

Lemma inject_nat_succ (j : nat) : inject_Z (Z.of_nat (S j)) == inject_Z (Z.of_nat j) + 1.
Proof. rewrite Nat2Z.inj_succ, <- Z.add_1_r, inject_Z_plus. reflexivity. Qed.

Lemma fraction_order (a b a' b' : Q) :
  0 <= a -> a <= a' -> 0 < b' -> b' <= b ->
  a / (a + b) <= a' / (a' + b').
Proof.
  intros Ha Haa Hb Hbb.
  apply Qle_shift_div_l; [lra|].
  assert (E : a / (a + b) * (a' + b') == (a * (a' + b')) / (a + b)) by (field; lra).
  rewrite E. apply Qle_shift_div_r; [lra|].
  assert (H1 : 0 <= (a' - a) * b') by (apply Qmult_le_0_compat; lra).
  assert (H2 : 0 <= a' * (b - b')) by (apply Qmult_le_0_compat; lra).
  lra.
Qed.

(** A run whose remaining cost is nowhere above that of another, and never
    rises, pays back no later. *)
Lemma payback_order (cost first price rate cost' first' price' rate' : Q) :
  (forall i, (i <= 25)%nat ->
     nth i (remaining_cost cost first price rate) 0
     <= nth i (remaining_cost cost' first' price' rate') 0) ->
  (forall i j, (i <= j)%nat -> (j <= 25)%nat ->
     nth j (remaining_cost cost first price rate) 0
     <= nth i (remaining_cost cost first price rate) 0) ->
  create_economic_plot cost first price rate
  <= create_economic_plot cost' first' price' rate'.
Proof.
  intros Hle Hmono.
  assert (Hb := payback_within_horizon_aux cost first price rate).
  assert (Hb' := payback_within_horizon_aux cost' first' price' rate').
  destruct (payback_located cost first price rate)
    as [[Hpos E] | [[Hneg E] | [j [Hj [Hge [Hnext [Hend Hmid]]]]]]].
  - rewrite E. rewrite (payback_right cost' first' price' rate').
    + apply Qle_refl.
    + assert (H := Hle 25%nat ltac:(lia)). lra.
  - rewrite E. apply Hb'.
  - destruct (payback_located cost' first' price' rate')
      as [[Hpos' E'] | [[Hneg' E'] | [j' [Hj' [Hge' [Hnext' [Hend' Hmid']]]]]]].
    + rewrite E'. apply Hb.
    + exfalso.
      assert (H0 := Hle 0%nat ltac:(lia)).
      assert (H1 := Hmono 0%nat j ltac:(lia) Hj).
      rewrite (remaining_cost_nth 0 cost') in H0 by lia.
      change (nth 0 (cumulative_savings first' price' rate') 0) with 0 in H0. lra.
    + destruct (lt_eq_lt_dec j j') as [[Hlt | Heq] | Hgt].
      * assert (Hj25 : (j < 25)%nat) by lia.
        rewrite (Hmid Hj25).
        assert (Hs := payback_segment cost first price rate j Hj25 Hge (Hnext Hj25)).
        assert (Hlow : inject_Z (Z.of_nat j') <= create_economic_plot cost' first' price' rate').
        { destruct (Nat.eq_dec j' 25) as [E25|Hne].
          - rewrite (Hend' E25). subst j'. apply Qle_refl.
          - assert (Hj25' : (j' < 25)%nat) by lia. rewrite (Hmid' Hj25').
            apply (payback_segment cost' first' price' rate' j' Hj25' Hge' (Hnext' Hj25')). }
        assert (Hjj := inject_nat_le (S j) j' ltac:(lia)).
        rewrite inject_nat_succ in Hjj. lra.
      * subst j'. destruct (Nat.eq_dec j 25) as [E25|Hne].
        -- rewrite (Hend E25), (Hend' E25). apply Qle_refl.
        -- assert (Hj25 : (j < 25)%nat) by lia.
           rewrite (Hmid Hj25), (Hmid' Hj25).
           specialize (Hnext Hj25). specialize (Hnext' Hj25).
           assert (Ha := Hle j ltac:(lia)). assert (Hbn := Hle (S j) ltac:(lia)).
           set (a := nth j (remaining_cost cost first price rate) 0) in *.
           set (b := nth (S j) (remaining_cost cost first price rate) 0) in *.
           set (a' := nth j (remaining_cost cost' first' price' rate') 0) in *.
           set (b' := nth (S j) (remaining_cost cost' first' price' rate') 0) in *.
           assert (Hf := fraction_order a (- b) a' (- b') Hge Ha ltac:(lra) ltac:(lra)).
           assert (E1 : a / (a - b) == a / (a + - b)) by (field; lra).
           assert (E2 : a' / (a' - b') == a' / (a' + - b')) by (field; lra).
           rewrite E1, E2. lra.
      * exfalso. assert (Hj25' : (j' < 25)%nat) by lia.
        specialize (Hnext' Hj25').
        assert (H1 := Hle (S j') ltac:(lia)).
        assert (H2 := Hmono (S j') j ltac:(lia) Hj). lra.
Qed.

Lemma current_yield_order (n : nat) (y y' r r' : Q) :
  0 <= y -> y <= y' -> r' <= r -> r <= 1 ->
  0 <= current_yield_after n y r /\
  current_yield_after n y r <= current_yield_after n y' r'.
Proof.
  revert y y'. induction n as [|n IH]; intros y y' Hy Hyy Hrr Hr; simpl.
  - split; assumption.
  - unfold_num. apply IH; try assumption.
    + apply Qmult_le_0_compat; lra.
    + assert (H1 : 0 <= y * (r - r')) by (apply Qmult_le_0_compat; lra).
      assert (H2 : 0 <= (y' - y) * (1 - r')) by (apply Qmult_le_0_compat; lra).
      lra.
Qed.

Lemma cumulative_savings_order (i : nat) (y y' p p' r r' : Q) :
  0 <= y -> y <= y' -> 0 <= p -> p <= p' -> r' <= r -> r <= 1 -> (i <= 25)%nat ->
  nth i (cumulative_savings y p r) 0 <= nth i (cumulative_savings y' p' r') 0.
Proof.
  intros Hy Hyy Hp Hpp Hrr Hr. induction i as [|i IH]; intros Hi.
  - apply Qle_refl.
  - rewrite !cumulative_savings_step by lia.
    destruct (current_yield_order i y y' r r' Hy Hyy Hrr Hr) as [H0 H1].
    set (c := current_yield_after i y r) in *.
    set (c' := current_yield_after i y' r') in *.
    assert (H2 : 0 <= c * (p' - p)) by (apply Qmult_le_0_compat; lra).
    assert (H3 : 0 <= (c' - c) * p') by (apply Qmult_le_0_compat; lra).
    assert (H4 := IH ltac:(lia)). lra.
Qed.

Lemma remaining_cost_falls (cost y p r : Q) (i j : nat) :
  0 <= y -> 0 <= p -> r <= 1 -> (i <= j)%nat -> (j <= 25)%nat ->
  nth j (remaining_cost cost y p r) 0 <= nth i (remaining_cost cost y p r) 0.
Proof.
  intros Hy Hp Hr Hij Hj. rewrite !remaining_cost_nth by lia.
  assert (H := cumulative_savings_monotone i j y p r Hy Hp Hr Hij Hj). lra.
Qed.

Lemma current_yield_no_degradation (n : nat) (y r : Q) :
  r == 0 -> current_yield_after n y r == y.
Proof.
  intros Hr. revert y. induction n as [|n IH]; intros y; simpl; [reflexivity|].
  rewrite IH. unfold_num. rewrite Hr. ring.
Qed.

Lemma cumulative_savings_no_degradation (i : nat) (y p r : Q) :
  r == 0 -> (i <= 25)%nat ->
  nth i (cumulative_savings y p r) 0 == inject_Z (Z.of_nat i) * (y * p).
Proof.
  intros Hr. induction i as [|i IH]; intros Hi.
  - cbn. ring.
  - rewrite cumulative_savings_step by lia. rewrite IH by lia.
    rewrite (current_yield_no_degradation i y r Hr), inject_nat_succ. ring.
Qed.

(** X1: for a nonnegative yield and price and a rate of at most 1, whatever
    the cost, the abscissae that [create_economic_plot] hands to [np.interp]
    never decrease, and the payback it returns lies between 0 and 25 years
    (exact arithmetic). *)
Theorem payback_within_horizon (cost first price rate : Q) :
  0 <= first -> 0 <= price -> rate <= 1 ->
  (forall i j, (i <= j)%nat -> (j <= 25)%nat ->
     nth i (map Qopp (remaining_cost cost first price rate)) 0
     <= nth j (map Qopp (remaining_cost cost first price rate)) 0) /\
  0 <= create_economic_plot cost first price rate <= 25.
Proof.
  intros Hf Hp Hr. split.
  - intros i j Hij Hj. rewrite !opp_remaining_nth.
    assert (H := remaining_cost_falls cost first price rate i j Hf Hp Hr Hij Hj). lra.
  - exact (payback_within_horizon_aux cost first price rate).
Qed.

(** X2: in exact arithmetic, for a nonnegative yield and price and a rate of
    at most 1, a higher installation cost never gives an earlier payback. *)
Theorem payback_monotone_in_cost (cost cost' first price rate : Q) :
  0 <= first -> 0 <= price -> rate <= 1 -> cost <= cost' ->
  create_economic_plot cost first price rate
  <= create_economic_plot cost' first price rate.
Proof.
  intros Hf Hp Hr Hc. apply payback_order.
  - intros i Hi. rewrite !remaining_cost_nth by lia. lra.
  - intros i j Hij Hj. apply remaining_cost_falls; assumption.
Qed.

(** X3: in exact arithmetic, for a nonnegative yield and price, a higher
    degradation rate (up to 1) never gives an earlier payback. *)
Theorem payback_monotone_in_degradation (cost first price rate rate' : Q) :
  0 <= first -> 0 <= price -> rate <= rate' -> rate' <= 1 ->
  create_economic_plot cost first price rate
  <= create_economic_plot cost first price rate'.
Proof.
  intros Hf Hp Hrr Hr. apply payback_order.
  - intros i Hi. rewrite !remaining_cost_nth by lia.
    assert (H := cumulative_savings_order i first first price price rate' rate
                   Hf (Qle_refl first) Hp (Qle_refl price) Hrr Hr Hi). lra.
  - intros i j Hij Hj. apply remaining_cost_falls; try assumption. lra.
Qed.

(** X4: in exact arithmetic, a higher first-year yield or a higher
    electricity price never gives a later payback. *)
Theorem payback_antitone_in_savings (cost first first' price price' rate : Q) :
  0 <= first -> first <= first' -> 0 <= price -> price <= price' -> rate <= 1 ->
  create_economic_plot cost first' price' rate
  <= create_economic_plot cost first price rate.
Proof.
  intros Hf Hff Hp Hpp Hr. apply payback_order.
  - intros i Hi. rewrite !remaining_cost_nth by lia.
    assert (H := cumulative_savings_order i first first' price price' rate rate
                   Hf Hff Hp Hpp (Qle_refl rate) Hr Hi). lra.
  - intros i j Hij Hj. apply remaining_cost_falls; try assumption; lra.
Qed.

(** X5: in exact arithmetic, without degradation and with positive yearly
    savings that recover the cost within the 25 years, the payback is the
    cost divided by the yearly savings. *)
Theorem payback_without_degradation (cost first price rate : Q) :
  rate == 0 -> 0 < first * price -> 0 <= cost -> cost <= 25 * (first * price) ->
  create_economic_plot cost first price rate == cost / (first * price).
Proof.
  intros Hr Hs Hc0 Hc25.
  assert (Hrem : forall i, (i <= 25)%nat ->
            nth i (remaining_cost cost first price rate) 0
            == cost - inject_Z (Z.of_nat i) * (first * price)).
  { intros i Hi. rewrite remaining_cost_nth by lia.
    rewrite (cumulative_savings_no_degradation i first price rate Hr Hi). reflexivity. }
  set (s := first * price) in *.
  destruct (payback_located cost first price rate)
    as [[Hpos E] | [[Hneg E] | [j [Hj [Hge [Hnext [Hend Hmid]]]]]]].
  - rewrite (Hrem 25%nat (le_n 25)) in Hpos.
    change (inject_Z (Z.of_nat 25)) with 25 in Hpos. lra.
  - lra.
  - destruct (Nat.eq_dec j 25) as [E25|Hne].
    + rewrite (Hend E25). subst j. rewrite (Hrem 25%nat (le_n 25)) in Hge.
      change (inject_Z (Z.of_nat 25)) with 25 in Hge.
      assert (Hcs : cost == 25 * s) by lra.
      rewrite Hcs. field. lra.
    + assert (Hj25 : (j < 25)%nat) by lia.
      rewrite (Hmid Hj25), (Hrem j Hj), (Hrem (S j) Hj25), inject_nat_succ.
      field. lra.
Qed.

(** X6: with nothing to recover the payback is year 0 as soon as the first
    year saves anything, and year 25 when no year saves anything. *)
Theorem payback_of_zero_cost (cost first price rate : Q) :
  cost == 0 -> 0 <= first -> 0 <= price -> rate <= 1 ->
  (0 < first * price -> create_economic_plot cost first price rate == 0) /\
  (first * price == 0 -> create_economic_plot cost first price rate == 25).
Proof.
  intros Hc Hf Hp Hr.
  assert (Hrem : forall i, (i <= 25)%nat ->
            nth i (remaining_cost cost first price rate) 0
            == - nth i (cumulative_savings first price rate) 0).
  { intros i Hi. rewrite remaining_cost_nth by lia. rewrite Hc. ring. }
  assert (Hcum1 : nth 1 (cumulative_savings first price rate) 0 == first * price).
  { rewrite cumulative_savings_step by lia.
    change (nth 0 (cumulative_savings first price rate) 0) with 0.
    change (current_yield_after 0 first rate) with first. ring. }
  split.
  - intros Hs.
    destruct (payback_located cost first price rate)
      as [[Hpos E] | [[Hneg E] | [j [Hj [Hge [Hnext [Hend Hmid]]]]]]].
    + rewrite (Hrem 25%nat (le_n 25)) in Hpos.
      assert (H := cumulative_savings_monotone 1 25 first price rate Hf Hp Hr
                     ltac:(lia) ltac:(lia)). lra.
    + lra.
    + destruct j as [|j].
      * rewrite (Hmid ltac:(lia)). rewrite (Hrem 0%nat ltac:(lia)), (Hrem 1%nat ltac:(lia)).
        rewrite Hcum1.
        change (nth 0 (cumulative_savings first price rate) 0) with 0.
        change (inject_Z (Z.of_nat 0)) with 0.
        set (s := first * price) in *. field. lra.
      * exfalso. rewrite (Hrem (S j) Hj) in Hge.
        assert (H := cumulative_savings_monotone 1 (S j) first price rate Hf Hp Hr
                       ltac:(lia) Hj). lra.
  - intros Hs.
    assert (Hflat : forall i, (i <= 25)%nat ->
              nth i (remaining_cost cost first price rate) 0 == 0).
    { intros i Hi. rewrite (Hrem i Hi).
      rewrite (cumulative_savings_flat i first price rate); [ring | | exact Hi].
      destruct (Qeq_dec price 0) as [E|Hne]; [left; exact E|].
      right. destruct (Qeq_dec first 0) as [E|Hnf]; [exact E|].
      exfalso. apply (Qmult_integral first price) in Hs. tauto. }
    destruct (payback_located cost first price rate)
      as [[Hpos E] | [[Hneg E] | [j [Hj [Hge [Hnext [Hend Hmid]]]]]]].
    + rewrite (Hflat 25%nat (le_n 25)) in Hpos. lra.
    + lra.
    + destruct (Nat.eq_dec j 25) as [E25|Hne].
      * rewrite (Hend E25). reflexivity.
      * exfalso. assert (Hj25 : (j < 25)%nat) by lia.
        specialize (Hnext Hj25). rewrite (Hflat (S j) Hj25) in Hnext. lra.
Qed.

(** X7: in exact arithmetic, with a nonnegative yield and price and a rate
    between 0 and 1 the cumulative savings never fall from one year to the
    next and never exceed the undegraded savings,
    [years * first_year_yield * price]. *)
Theorem cumulative_savings_bounds (first price rate : Q) (i j : nat) :
  0 <= first -> 0 <= price -> 0 <= rate -> rate <= 1 ->
  (i <= j)%nat -> (j <= 25)%nat ->
  0 <= nth i (cumulative_savings first price rate) 0 /\
  nth i (cumulative_savings first price rate) 0
    <= nth j (cumulative_savings first price rate) 0 /\
  nth j (cumulative_savings first price rate) 0
    <= inject_Z (Z.of_nat j) * (first * price).
Proof.
  intros Hf Hp Hr0 Hr1 Hij Hj.
  split; [|split].
  - assert (H := cumulative_savings_monotone 0 i first price rate Hf Hp Hr1
                   ltac:(lia) ltac:(lia)). exact H.
  - apply cumulative_savings_monotone; assumption.
  - rewrite <- (cumulative_savings_no_degradation j first price 0 (Qeq_refl 0) Hj).
    apply cumulative_savings_order; try assumption; apply Qle_refl.
Qed.

(** *** Proportions and waterfall, further *)

Lemma Qdiv_zero_divisor (a b : Q) : b == 0 -> a / b == 0.
Proof.
  intros Hb. unfold Qdiv. rewrite Hb. change (/ 0) with 0. ring.
Qed.

(** X8: in exact arithmetic, deriving the proportions again from a
    reconstructed waterfall (plane of array energy, what is left after the DC
    loss, final yield) gives the proportions that went in, for proportions
    summing to one, a nonzero [final_yield_ratio] and a nonzero yield. *)
Theorem proportions_round_trip (real : Q) (lp : LossProportions Q) :
  dc_system_loss_ratio lp + inverter_loss_ratio lp + final_yield_ratio lp == 1 ->
  ~ final_yield_ratio lp == 0 -> ~ real == 0 ->
  let w := reconstruct_losses real lp in
  let lp' := loss_proportions (POA_Energy_kWh w)
               (POA_Energy_kWh w - DC_System_Loss_kWh w) (Final_AC_Yield_kWh w) in
  dc_system_loss_ratio lp' == dc_system_loss_ratio lp /\
  inverter_loss_ratio lp' == inverter_loss_ratio lp /\
  final_yield_ratio lp' == final_yield_ratio lp.
Proof.
  destruct lp as [d i f]. cbn. intros Hsum Hf Hr.
  assert (Hi : i == 1 - d - f) by lra.
  repeat split.
  - field. split; assumption.
  - rewrite Hi. field. split; assumption.
  - field. split; assumption.
Qed.

(** X9: in exact arithmetic, the loss proportions do not change when the
    three energies are all multiplied by the same nonzero factor. *)
Theorem loss_proportions_scale_invariant (k poa dc ac : Q) :
  ~ k == 0 ->
  dc_system_loss_ratio (loss_proportions (k * poa) (k * dc) (k * ac))
    == dc_system_loss_ratio (loss_proportions poa dc ac) /\
  inverter_loss_ratio (loss_proportions (k * poa) (k * dc) (k * ac))
    == inverter_loss_ratio (loss_proportions poa dc ac) /\
  final_yield_ratio (loss_proportions (k * poa) (k * dc) (k * ac))
    == final_yield_ratio (loss_proportions poa dc ac).
Proof.
  intros Hk. cbn.
  destruct (Qeq_dec poa 0) as [E|Hp].
  - assert (Ek : k * poa == 0) by (rewrite E; ring).
    rewrite !(Qdiv_zero_divisor _ (k * poa) Ek), !(Qdiv_zero_divisor _ poa E).
    repeat split; reflexivity.
  - repeat split; field; split; assumption.
Qed.

(** *** Sums of monthly bins *)

Lemma fold_add_shift {K : Type} (l : list (K * Q)) (a : Q) :
  fold_left (fun acc p => num_add acc (snd p)) l a ==
  a + fold_left (fun acc p => num_add acc (snd p)) l 0.
Proof.
  revert a. induction l as [|p l IH]; intros a; cbn [fold_left].
  - ring.
  - rewrite (IH (num_add a (snd p))), (IH (num_add 0 (snd p))). unfold_num. ring.
Qed.

Lemma series_sum_cons (p : timestamp * Q) (s : series Q) :
  series_sum (p :: s) == snd p + series_sum s.
Proof.
  unfold series_sum. cbn [fold_left]. rewrite fold_add_shift. unfold_num. ring.
Qed.

Lemma bins_sum_cons (p : Z * Q) (b : list (Z * Q)) :
  bins_sum (p :: b) == snd p + bins_sum b.
Proof.
  unfold bins_sum. cbn [fold_left]. rewrite fold_add_shift. unfold_num. ring.
Qed.

Lemma bins_sum_map_ext (f g : Z -> Q) (ks : list Z) :
  (forall k, f k == g k) ->
  bins_sum (map (fun k => (k, f k)) ks) == bins_sum (map (fun k => (k, g k)) ks).
Proof.
  intros Hfg. induction ks as [|k ks IH]; [reflexivity|].
  cbn [map]. rewrite !bins_sum_cons, IH. cbn [snd]. rewrite Hfg. reflexivity.
Qed.

Lemma bins_sum_map_add (f g : Z -> Q) (ks : list Z) :
  bins_sum (map (fun k => (k, f k + g k)) ks) ==
  bins_sum (map (fun k => (k, f k)) ks) + bins_sum (map (fun k => (k, g k)) ks).
Proof.
  induction ks as [|k ks IH]; [cbn; ring|].
  cbn [map]. rewrite !bins_sum_cons, IH. cbn [snd]. ring.
Qed.

Lemma bins_sum_indicator (x : Z) (w : Q) (ks : list Z) :
  NoDup ks ->
  bins_sum (map (fun k => (k, if (x =? k)%Z then w else 0)) ks) ==
  if in_dec Z.eq_dec x ks then w else 0.
Proof.
  induction 1 as [|k ks Hnotin Hnd IH]; [reflexivity|].
  cbn [map]. rewrite bins_sum_cons, IH. cbn [snd].
  destruct (Z.eqb_spec x k) as [E|Hne].
  - subst k. destruct (in_dec Z.eq_dec x (x :: ks)) as [_|Hn]; [|exfalso; apply Hn; left; reflexivity].
    destruct (in_dec Z.eq_dec x ks) as [Hin|_]; [contradiction|]. ring.
  - destruct (in_dec Z.eq_dec x ks) as [Hin|Hnin];
      destruct (in_dec Z.eq_dec x (k :: ks)) as [Hin'|Hnin'].
    + ring.
    + exfalso. apply Hnin'. right. exact Hin.
    + exfalso. destruct Hin' as [E|Hin']; [congruence | contradiction].
    + ring.
Qed.

Lemma bins_sum_zero (ks : list Z) :
  bins_sum (map (fun k => (k, 0)) ks) == 0.
Proof.
  induction ks as [|k ks IH]; [reflexivity|].
  cbn [map]. rewrite bins_sum_cons, IH. cbn [snd]. ring.
Qed.

Lemma bins_sum_filtered (s : series Q) (ks : list Z) :
  NoDup ks ->
  (forall p, In p s -> In (month_index (fst p)) ks) ->
  bins_sum (map (fun k =>
                   (k, series_sum (filter (fun p => (month_index (fst p) =? k)%Z) s)))
                ks)
  == series_sum s.
Proof.
  intros Hnd. induction s as [|p s IH]; intros Hcover.
  - exact (bins_sum_zero ks).
  - rewrite series_sum_cons, <- IH by (intros q Hq; apply Hcover; right; exact Hq).
    rewrite (bins_sum_map_ext
               (fun k => series_sum
                           (filter (fun q => (month_index (fst q) =? k)%Z) (p :: s)))
               (fun k => (if (month_index (fst p) =? k)%Z then snd p else 0)
                         + series_sum
                             (filter (fun q => (month_index (fst q) =? k)%Z) s))).
    + rewrite bins_sum_map_add, (bins_sum_indicator _ _ ks Hnd).
      destruct (in_dec Z.eq_dec (month_index (fst p)) ks) as [_|Hn]; [reflexivity|].
      exfalso. apply Hn. apply Hcover. left. reflexivity.
    + intros k. cbn [filter].
      destruct (month_index (fst p) =? k)%Z; [apply series_sum_cons | ring].
Qed.

Lemma fold_min_le (l : list Z) (a x : Z) :
  In x (a :: l) -> (fold_left Z.min l a <= x)%Z.
Proof.
  assert (H : forall l a, (fold_left Z.min l a <= a)%Z /\
                          (forall y, In y l -> (fold_left Z.min l a <= y)%Z)).
  { clear. induction l as [|b l IH]; intros a; simpl.
    - split; [lia | intros y []].
    - destruct (IH (Z.min a b)) as [H1 H2]. split; [lia|].
      intros y [E|Hy]; [subst y; lia | apply H2; exact Hy]. }
  destruct (H l a) as [H1 H2].
  intros [E|Hin]; [subst x; exact H1 | apply H2; exact Hin].
Qed.

Lemma fold_max_ge (l : list Z) (a x : Z) :
  In x (a :: l) -> (x <= fold_left Z.max l a)%Z.
Proof.
  assert (H : forall l a, (a <= fold_left Z.max l a)%Z /\
                          (forall y, In y l -> (y <= fold_left Z.max l a)%Z)).
  { clear. induction l as [|b l IH]; intros a; simpl.
    - split; [lia | intros y []].
    - destruct (IH (Z.max a b)) as [H1 H2]. split; [lia|].
      intros y [E|Hy]; [subst y; lia | apply H2; exact Hy]. }
  destruct (H l a) as [H1 H2].
  intros [E|Hin]; [subst x; exact H1 | apply H2; exact Hin].
Qed.

Lemma NoDup_map_injective {A B : Type} (f : A -> B) (l : list A) :
  (forall x y, f x = f y -> x = y) -> NoDup l -> NoDup (map f l).
Proof.
  intros Hinj. induction 1 as [|a l Hnotin Hnd IH]; cbn [map]; constructor.
  - intros Hin. apply in_map_iff in Hin. destruct Hin as [y [E Hy]].
    apply Hinj in E. subst y. contradiction.
  - exact IH.
Qed.

Lemma Zrange_NoDup (lo : Z) (n : nat) : NoDup (Zrange lo n).
Proof.
  unfold Zrange. apply NoDup_map_injective; [|apply seq_NoDup].
  intros i j E. lia.
Qed.

Lemma Zrange_In (lo x : Z) (n : nat) :
  (lo <= x < lo + Z.of_nat n)%Z -> In x (Zrange lo n).
Proof.
  intros Hx. unfold Zrange. apply in_map_iff. exists (Z.to_nat (x - lo)).
  split; [lia|]. apply in_seq. lia.
Qed.

Lemma resample_conserves (s : series Q) :
  bins_sum (resample_ME_sum s) == series_sum s.
Proof.
  unfold resample_ME_sum.
  destruct (map (fun p => month_index (fst p)) s) as [|m ms] eqn:E.
  - destruct s; [reflexivity | discriminate E].
  - apply bins_sum_filtered; [apply Zrange_NoDup|].
    intros p Hp.
    assert (Hin : In (month_index (fst p)) (m :: ms)).
    { rewrite <- E. apply in_map_iff. exists p. split; [reflexivity | exact Hp]. }
    assert (Hlo := fold_min_le ms m _ Hin). assert (Hhi := fold_max_ge ms m _ Hin).
    apply Zrange_In. lia.
Qed.

Lemma bins_sum_div (b : list (Z * Q)) (d : Q) :
  bins_sum (bins_div b d) == bins_sum b / d.
Proof.
  induction b as [|p b IH]; [cbn; unfold Qdiv; ring|].
  cbn [bins_div map]. fold (bins_div b d).
  rewrite !bins_sum_cons, IH. cbn [snd]. unfold_num. unfold Qdiv. ring.
Qed.

Lemma bins_sum_mul (b : list (Z * Q)) (k : Q) :
  bins_sum (bins_mul b k) == bins_sum b * k.
Proof.
  induction b as [|p b IH]; [cbn; ring|].
  cbn [bins_mul map]. fold (bins_mul b k).
  rewrite !bins_sum_cons, IH. cbn [snd]. unfold_num. ring.
Qed.

(** X10: in exact arithmetic, whatever the series, its months and its order,
    the monthly figures add up to the sum of all samples divided by 1000: no
    sample is lost or counted twice. *)
Theorem monthly_yield_conserves_energy (ac_power : series Q) :
  bins_sum (monthly_yield ac_power) == series_sum ac_power / 1000.
Proof.
  unfold monthly_yield. rewrite bins_sum_div, resample_conserves. reflexivity.
Qed.

(** X11: in exact arithmetic, for the yield and the series that
    [run_simulation] returns, the stored monthly production adds up to the
    real specific yield times the rated power of one module in kW
    ([STC / 1000]): the monthly figures are per module, the yield is per
    kWp. *)
Theorem monthly_production_totals
    (mc : ModelChainResults Q) (module : CECModule Q)
    (health_slider cost price co2_intensity rate : Q) :
  ~ STC module == 0 ->
  let sim := run_simulation mc module in
  let r := update_gui_results health_slider (fst (fst sim)) (snd (fst sim))
             cost price co2_intensity (snd sim) rate in
  bins_sum (monthly_production r) == real_specific_yield r * (STC module / 1000).
Proof.
  intros Hstc sim r. subst sim r.
  cbn [run_simulation fst snd update_gui_results monthly_production
       real_specific_yield rescale].
  rewrite bins_sum_mul, bins_sum_div, resample_conserves.
  unfold slider_fraction. unfold_num.
  change (inject_Z 1000) with 1000. change (inject_Z 100) with 100.
  field. exact Hstc.
Qed.

(** *** Charts, further *)



(** X13: in exact arithmetic, for a nonnegative yield and slider position and
    proportions in range (nonnegative loss ratios, positive yield ratio, sum
    one), the loss diagram steps down: each connector starts where the one
    before ended, no connector rises, the last one is level at the real
    specific yield, and the two loss bars point down and close the gap
    between the first and the last bar. *)
Theorem loss_diagram_steps_down
    (health_slider specific_yield : Q) (ac_power : series Q)
    (cost price co2_intensity : Q) (lp : LossProportions Q) (rate : Q) :
  0 <= health_slider -> 0 <= specific_yield ->
  0 <= dc_system_loss_ratio lp -> 0 <= inverter_loss_ratio lp ->
  0 < final_yield_ratio lp ->
  dc_system_loss_ratio lp + inverter_loss_ratio lp + final_yield_ratio lp == 1 ->
  let r := update_gui_results health_slider specific_yield ac_power
             cost price co2_intensity lp rate in
  let d := create_loss_diagram (scaled_losses r) in
  exists a0 a1 a2 a3 b1 b2 : Q,
    connector_levels d = [(a0, a1); (a1, a2); (a2, a3)] /\
    bar_values d = [a0; b1; b2; a3] /\
    a1 <= a0 /\ a2 <= a1 /\ a2 == a3 /\ a3 = real_specific_yield r /\ 0 <= a3 /\
    b1 <= 0 /\ b2 <= 0 /\ a0 + b1 + b2 == a3.
Proof.
  intros Hs Hy Hd Hi Hf Hsum r d. subst d r.
  cbn [update_gui_results scaled_losses real_specific_yield rescale fst].
  set (real := num_mul specific_yield (slider_fraction health_slider)).
  assert (Hreal : 0 <= real).
  { unfold real, slider_fraction. unfold_num. apply Qmult_le_0_compat; [exact Hy|].
    apply Qle_shift_div_l; [reflexivity|]. lra. }
  assert (Hbal := reconstruct_losses_balance real lp Hsum Hf).
  destruct lp as [dr ir fr].
  unfold create_loss_diagram, reconstruct_losses in *.
  cbn [dc_system_loss_ratio inverter_loss_ratio final_yield_ratio
       POA_Energy_kWh DC_System_Loss_kWh Inverter_Loss_kWh Final_AC_Yield_kWh
       connector_levels bar_values] in *.
  unfold_num.
  assert (Hpoa : 0 <= real / fr) by (apply Qle_shift_div_l; lra).
  assert (Hdc : 0 <= real / fr * dr) by (apply Qmult_le_0_compat; assumption).
  assert (Hinv : 0 <= real / fr * ir) by (apply Qmult_le_0_compat; assumption).
  do 6 eexists. split; [reflexivity|]. split; [reflexivity|].
  repeat split; try lra.
Qed.

(** *** The run, further *)

Section RunFurther.
Context {W S R : Type}.
Variable component_names : S -> string.
Variable basename : string -> string.

(** X14: when every step of a run succeeds, the window ends with the new
    results stored, the run button enabled again under its first label, the
    export button enabled, and the components in the status line. *)
Theorem successful_run_shows_results
    (c : Collaborators W S R) (g : Gui R) (d : W) (sim : S) (r : R) :
  read_entries c = Returns tt ->
  fst (get_tmy_data c) = Returns (Some d) ->
  model_chain c d = Returns sim ->
  derive_and_plot c sim = Returns r ->
  let g' := press_run component_names c g in
  run_button_state g' = normal /\
  run_button_text g' = "Run Simulation"%string /\
  export_button_state g' = normal /\
  simulation_results g' = Some r /\
  system_details_label g' = ("Simulated Components: " ++ component_names sim)%string.
Proof.
  intros Hr Hf Hm Hp g'. subst g'. unfold press_run, run_simulation_task.
  rewrite Hr. destruct (get_tmy_data c) as [o out]. cbn in Hf. subst o.
  rewrite Hm. cbn. unfold update_gui_results_window. rewrite Hp. cbn.
  repeat split; reflexivity.
Qed.

(** What a press of the run button can do to the stored results and to the
    export button. *)
Lemma press_run_results (c : Collaborators W S R) (g : Gui R) :
  (exists r, simulation_results (press_run component_names c g) = Some r /\
             export_button_state (press_run component_names c g) = normal /\
             exists sim, fst (run_simulation_task c) = Some (UpdateGuiResults sim)) \/
  (simulation_results (press_run component_names c g) = simulation_results g /\
   export_button_state (press_run component_names c g) = export_button_state g).
Proof.
  unfold press_run.
  destruct (run_simulation_task c) as [[[sim|text]|] out] eqn:E; cbn.
  - unfold update_gui_results_window.
    destruct (derive_and_plot c sim) as [r|e]; cbn.
    + left. exists r. repeat split. exists sim. reflexivity.
    + right. split; reflexivity.
  - right. split; reflexivity.
  - right. split; reflexivity.
Qed.

(** X15: no run ever clears stored results, and the export button is enabled
    only while results are stored: this holds in the window as [__init__]
    leaves it and is kept by every press of the run button and by every
    export, whatever the collaborators do. *)
Theorem export_enabled_only_with_results :
  (export_button_state (initial_gui R) = normal ->
   simulation_results (initial_gui R) <> None) /\
  (forall (c : Collaborators W S R) (g : Gui R),
      (export_button_state g = normal -> simulation_results g <> None) ->
      (export_button_state (press_run component_names c g) = normal ->
       simulation_results (press_run component_names c g) <> None) /\
      (simulation_results g <> None ->
       simulation_results (press_run component_names c g) <> None)) /\
  (forall (file_path : string) (write : R -> string -> outcome unit) (g : Gui R),
      export_button_state (fst (export_to_csv basename file_path write g))
        = export_button_state g /\
      simulation_results (fst (export_to_csv basename file_path write g))
        = simulation_results g /\
      run_button_state (fst (export_to_csv basename file_path write g))
        = run_button_state g).
Proof.
  split; [|split].
  - cbn. discriminate.
  - intros c g Hinv.
    destruct (press_run_results c g) as [[r [Hr [He _]]] | [Hr He]].
    + rewrite Hr. split; intros _; discriminate.
    + rewrite Hr, He. split; [exact Hinv | auto].
  - intros file_path write g. unfold export_to_csv.
    destruct (simulation_results g) as [r|] eqn:Eres;
      [|cbn; rewrite Eres; repeat split; reflexivity].
    destruct (file_path =? "")%string;
      [cbn; rewrite Eres; repeat split; reflexivity|].
    destruct (write r file_path); cbn; rewrite ?Eres; repeat split; reflexivity.
Qed.

(** X16: after a successful run, a second run that queues no update of the
    results (an exception in the task, a failed download) leaves the first
    run's results in place, and an export then writes those. *)
Theorem export_after_failed_rerun
    (c1 c2 : Collaborators W S R) (g : Gui R) (d : W) (sim : S) (r : R)
    (file_path : string) (write : R -> string -> outcome unit) :
  read_entries c1 = Returns tt ->
  fst (get_tmy_data c1) = Returns (Some d) ->
  model_chain c1 d = Returns sim ->
  derive_and_plot c1 sim = Returns r ->
  (forall sim', fst (run_simulation_task c2) <> Some (UpdateGuiResults sim')) ->
  file_path <> ""%string ->
  write r file_path = Returns tt ->
  let g2 := press_run component_names c2 (press_run component_names c1 g) in
  simulation_results g2 = Some r /\
  export_button_state g2 = normal /\
  snd (export_to_csv basename file_path write g2) = Some (file_path, r) /\
  system_details_label (fst (export_to_csv basename file_path write g2))
    = ("Results successfully exported to " ++ basename file_path)%string.
Proof.
  intros Hr Hf Hm Hp Hno Hpath Hw g2.
  assert (H1 : simulation_results (press_run component_names c1 g) = Some r /\
               export_button_state (press_run component_names c1 g) = normal).
  { unfold press_run, run_simulation_task.
    rewrite Hr. destruct (get_tmy_data c1) as [o out]. cbn in Hf. subst o.
    rewrite Hm. cbn. unfold update_gui_results_window. rewrite Hp. cbn.
    split; reflexivity. }
  destruct H1 as [Hres Hexp].
  assert (H2 : simulation_results g2 = Some r /\ export_button_state g2 = normal).
  { subst g2.
    destruct (press_run_results c2 (press_run component_names c1 g))
      as [[r' [_ [_ [sim' Hq]]]] | [Hr2 He2]].
    - exfalso. exact (Hno sim' Hq).
    - rewrite Hr2, He2. split; assumption. }
  destruct H2 as [Hres2 Hexp2].
  split; [exact Hres2|]. split; [exact Hexp2|].
  unfold export_to_csv. rewrite Hres2.
  destruct (String.eqb_spec file_path "") as [E|_]; [contradiction|].
  rewrite Hw. split; reflexivity.
Qed.

End RunFurther.

(** *** The weather cache on disk *)

Section DiskFacts.
Context {W File : Type}.
Variable to_csv : W -> File.
Variable read_csv : File -> outcome W.

(** The run model of [get_tmy_data] is the disk model with the folder
    forgotten. *)
Lemma get_tmy_data_disk_agrees {S R : Type}
    (c : Collaborators W S R) (fs : disk File) (latitude longitude : Q)
    (city_name : option string) :
  cached_file c
    = option_map read_csv (fs (tmy_file_name latitude longitude city_name)) ->
  fst (get_tmy_data_disk to_csv read_csv fs (pvgis_download c)
         latitude longitude city_name)
  = get_tmy_data c.
Proof.
  intros Hc. unfold get_tmy_data_disk, get_tmy_data. rewrite Hc.
  destruct (fs (tmy_file_name latitude longitude city_name)) as [f|]; cbn.
  - destruct (read_csv f); reflexivity.
  - destruct (pvgis_download c); reflexivity.
Qed.

(** X17: a download that succeeds is stored under the file name of the
    request and nowhere else; when the stored file reads back as the data,
    every later request with that file name gets the data from the folder,
    prints nothing and changes nothing, whether or not PVGIS could be
    reached; with a city name, that is every request for the city, whatever
    its coordinates. *)
Theorem weather_cache_round_trip
    (fs : disk File) (d : W) (latitude longitude : Q) (city_name : option string) :
  fs (tmy_file_name latitude longitude city_name) = None ->
  read_csv (to_csv d) = Returns d ->
  let first := get_tmy_data_disk to_csv read_csv fs (Returns d)
                 latitude longitude city_name in
  let fs1 := snd first in
  fst first = (Returns (Some d), []) /\
  (forall n, n <> tmy_file_name latitude longitude city_name -> fs1 n = fs n) /\
  (forall (pvgis : outcome W) (latitude' longitude' : Q) (city_name' : option string),
      tmy_file_name latitude' longitude' city_name'
        = tmy_file_name latitude longitude city_name ->
      get_tmy_data_disk to_csv read_csv fs1 pvgis latitude' longitude' city_name'
        = (Returns (Some d), [], fs1)) /\
  (forall (c : string) (latitude' longitude' : Q),
      c <> ""%string -> city_name = Some c ->
      tmy_file_name latitude' longitude' (Some c)
        = tmy_file_name latitude longitude city_name).
Proof.
  intros Hnone Hread first fs1.
  assert (Hfirst : first = (Returns (Some d), [],
                            write_file fs (tmy_file_name latitude longitude city_name)
                              (to_csv d))).
  { unfold first, get_tmy_data_disk. rewrite Hnone. reflexivity. }
  subst fs1. rewrite Hfirst. cbn [fst snd]. clear Hfirst first.
  split; [reflexivity|]. split; [|split].
  - intros n Hn. unfold write_file.
    destruct (String.eqb_spec n (tmy_file_name latitude longitude city_name));
      [contradiction | reflexivity].
  - intros pvgis latitude' longitude' city_name' Hname.
    unfold get_tmy_data_disk. rewrite Hname. unfold write_file at 1.
    rewrite String.eqb_refl, Hread. reflexivity.
  - intros c latitude' longitude' Hc ->. unfold tmy_file_name.
    destruct (String.eqb_spec c ""); [contradiction | reflexivity].
Qed.

(** X18: [get_tmy_data] never deletes, overwrites or refreshes a file that is
    in the folder, and a failed download leaves the folder as it was. *)
Theorem weather_cache_keeps_files
    (fs : disk File) (pvgis : outcome W) (latitude longitude : Q)
    (city_name : option string) :
  let fs' := snd (get_tmy_data_disk to_csv read_csv fs pvgis
                    latitude longitude city_name) in
  (forall n f, fs n = Some f -> fs' n = Some f) /\
  (forall e, pvgis = Raises e -> fs' = fs).
Proof.
  unfold get_tmy_data_disk.
  destruct (fs (tmy_file_name latitude longitude city_name)) as [f0|] eqn:E.
  - destruct (read_csv f0); cbn; split; auto.
  - destruct pvgis as [d|e0]; cbn; split; auto.
    + intros n f Hn. unfold write_file.
      destruct (String.eqb_spec n (tmy_file_name latitude longitude city_name))
        as [En|_]; [|exact Hn].
      subst n. congruence.
    + intros e He. discriminate He.
Qed.

End DiskFacts.

(** *** Location widgets *)

Lemma string_append_empty (s : string) : (s ++ "")%string = s.
Proof. induction s as [|a s IH]; [reflexivity|]. cbn. rewrite IH. reflexivity. Qed.

(** X19: selecting a city of the table puts [str] of its latitude and
    longitude into the two entries whatever they held and whether or not they
    were disabled, leaves them disabled exactly when the mode selector reads
    "Select City", and does not touch the city box; any other name raises
    [KeyError] before a widget is touched. *)
Theorem city_selected_writes_coordinates
    (str : Q -> string) (city_name : string) (p : LocationPanel) :
  (forall lat lon, city_lookup GERMAN_CITIES city_name = Some (lat, lon) ->
     exists p', city_selected str city_name p = Returns p' /\
       entry_text (lat_entry p') = str lat /\
       entry_text (lon_entry p') = str lon /\
       entry_state (lat_entry p')
         = (if (mode_selector p =? "Select City")%string then disabled else normal) /\
       entry_state (lon_entry p') = entry_state (lat_entry p') /\
       city_combobox_state p' = city_combobox_state p /\
       mode_selector p' = mode_selector p) /\
  (city_lookup GERMAN_CITIES city_name = None ->
     city_selected str city_name p = Raises "KeyError").
Proof.
  split.
  - intros lat lon Hl. unfold city_selected. rewrite Hl.
    destruct (mode_selector p =? "Select City")%string;
      eexists; (split; [reflexivity|]); cbn;
      rewrite !string_append_empty; repeat split; reflexivity.
  - intros Hl. unfold city_selected. rewrite Hl. reflexivity.
Qed.

(** X22: of two mode switches in a row only the last one counts, and no
    switch changes the text of an entry or the mode selector. *)
Theorem toggle_mode_last_wins (value value' : string) (p : LocationPanel) :
  toggle_mode value (toggle_mode value' p) = toggle_mode value p /\
  entry_text (lat_entry (toggle_mode value p)) = entry_text (lat_entry p) /\
  entry_text (lon_entry (toggle_mode value p)) = entry_text (lon_entry p) /\
  mode_selector (toggle_mode value p) = mode_selector p.
Proof.
  unfold toggle_mode.
  destruct (value =? "Select City")%string, (value' =? "Select City")%string;
    repeat split; reflexivity.
Qed.

(** *** Witnesses *)

Lemma payback_within_horizon_witness :
  0 <= 1100 /\ 0 <= 3 # 10 /\ 5 # 1000 <= 1 /\
  0 <= create_economic_plot 1500 1100 (3 # 10) (5 # 1000) <= 25.
Proof.
  repeat (split; [vm_compute; discriminate|]).
  apply (payback_within_horizon 1500 1100 (3 # 10) (5 # 1000));
    vm_compute; discriminate.
Defined.

Lemma payback_monotone_in_cost_witness :
  0 <= 1100 /\ 0 <= 3 # 10 /\ 5 # 1000 <= 1 /\ 1500 <= 2000 /\
  create_economic_plot 1500 1100 (3 # 10) (5 # 1000)
  <= create_economic_plot 2000 1100 (3 # 10) (5 # 1000).
Proof.
  repeat (split; [vm_compute; discriminate|]).
  apply (payback_monotone_in_cost 1500 2000 1100 (3 # 10) (5 # 1000));
    vm_compute; discriminate.
Defined.

Lemma payback_monotone_in_degradation_witness :
  0 <= 1100 /\ 0 <= 3 # 10 /\ 0 <= 5 # 1000 /\ 5 # 1000 <= 1 /\
  create_economic_plot 1500 1100 (3 # 10) 0
  <= create_economic_plot 1500 1100 (3 # 10) (5 # 1000).
Proof.
  repeat (split; [vm_compute; discriminate|]).
  apply (payback_monotone_in_degradation 1500 1100 (3 # 10) 0 (5 # 1000));
    vm_compute; discriminate.
Defined.

Lemma payback_antitone_in_savings_witness :
  0 <= 1000 /\ 1000 <= 1100 /\ 0 <= 1 # 4 /\ 1 # 4 <= 3 # 10 /\ 5 # 1000 <= 1 /\
  create_economic_plot 1500 1100 (3 # 10) (5 # 1000)
  <= create_economic_plot 1500 1000 (1 # 4) (5 # 1000).
Proof.
  repeat (split; [vm_compute; discriminate|]).
  apply (payback_antitone_in_savings 1500 1000 1100 (1 # 4) (3 # 10) (5 # 1000));
    vm_compute; discriminate.
Defined.

Lemma payback_without_degradation_witness :
  0 == 0 /\ 0 < 1100 * (3 # 10) /\ 0 <= 1500 /\ 1500 <= 25 * (1100 * (3 # 10)) /\
  create_economic_plot 1500 1100 (3 # 10) 0 == 1500 / (1100 * (3 # 10)).
Proof.
  split; [reflexivity|]. split; [vm_compute; reflexivity|].
  split; [vm_compute; discriminate|]. split; [vm_compute; discriminate|].
  apply (payback_without_degradation 1500 1100 (3 # 10) 0).
  - reflexivity.
  - vm_compute; reflexivity.
  - vm_compute; discriminate.
  - vm_compute; discriminate.
Defined.

Lemma payback_of_zero_cost_witness :
  0 < 1100 * (3 # 10) /\
  create_economic_plot 0 1100 (3 # 10) (5 # 1000) == 0 /\
  1100 * 0 == 0 /\
  create_economic_plot 0 1100 0 (5 # 1000) == 25.
Proof.
  split; [vm_compute; reflexivity|]. split.
  - apply (proj1 (payback_of_zero_cost 0 1100 (3 # 10) (5 # 1000)
                    ltac:(reflexivity) ltac:(vm_compute; discriminate)
                    ltac:(vm_compute; discriminate) ltac:(vm_compute; discriminate))).
    vm_compute; reflexivity.
  - split; [reflexivity|].
    apply (proj2 (payback_of_zero_cost 0 1100 0 (5 # 1000)
                    ltac:(reflexivity) ltac:(vm_compute; discriminate)
                    ltac:(vm_compute; discriminate) ltac:(vm_compute; discriminate))).
    reflexivity.
Defined.

Lemma cumulative_savings_bounds_witness :
  0 <= nth 3 (cumulative_savings 1100 (3 # 10) (5 # 1000)) 0 /\
  nth 3 (cumulative_savings 1100 (3 # 10) (5 # 1000)) 0
    <= nth 10 (cumulative_savings 1100 (3 # 10) (5 # 1000)) 0 /\
  nth 10 (cumulative_savings 1100 (3 # 10) (5 # 1000)) 0
    <= inject_Z (Z.of_nat 10) * (1100 * (3 # 10)).
Proof.
  apply (cumulative_savings_bounds 1100 (3 # 10) (5 # 1000) 3 10);
    try (vm_compute; discriminate); lia.
Defined.

Lemma proportions_round_trip_witness :
  let lp := loss_proportions 1200 1100 1000 in
  let w := reconstruct_losses 950 lp in
  let lp' := loss_proportions (POA_Energy_kWh w)
               (POA_Energy_kWh w - DC_System_Loss_kWh w) (Final_AC_Yield_kWh w) in
  dc_system_loss_ratio lp + inverter_loss_ratio lp + final_yield_ratio lp == 1 /\
  ~ final_yield_ratio lp == 0 /\ ~ 950 == 0 /\
  dc_system_loss_ratio lp' == dc_system_loss_ratio lp /\
  inverter_loss_ratio lp' == inverter_loss_ratio lp /\
  final_yield_ratio lp' == final_yield_ratio lp.
Proof.
  intros lp w lp'.
  split; [vm_compute; reflexivity|]. split; [vm_compute; discriminate|].
  split; [vm_compute; discriminate|].
  apply (proportions_round_trip 950 lp);
    [vm_compute; reflexivity | vm_compute; discriminate | vm_compute; discriminate].
Defined.

Lemma loss_proportions_scale_invariant_witness :
  ~ 95 # 100 == 0 /\
  final_yield_ratio
    (loss_proportions ((95 # 100) * 1200) ((95 # 100) * 1100) ((95 # 100) * 1000))
  == final_yield_ratio (loss_proportions 1200 1100 1000).
Proof.
  split; [vm_compute; discriminate|].
  apply (loss_proportions_scale_invariant (95 # 100) 1200 1100 1000).
  vm_compute; discriminate.
Defined.

Lemma monthly_production_totals_witness :
  let t := fun m d => {| ts_year := 2023; ts_month := m; ts_day := d;
                         ts_hour := 12; ts_minute := 0 |} in
  let mc := {| mc_ac := [(t 1%Z 10%Z, 200); (t 3%Z 5%Z, 250); (t 1%Z 20%Z, 150)];
               mc_dc_p_mp := [(t 1%Z 10%Z, 210); (t 3%Z 5%Z, 260); (t 1%Z 20%Z, 160)];
               mc_effective_irradiance :=
                 [(t 1%Z 10%Z, 900); (t 3%Z 5%Z, 950); (t 1%Z 20%Z, 800)] |} in
  let module := {| STC := 325; A_c := 167 # 100 |} in
  let sim := run_simulation mc module in
  let r := update_gui_results 95 (fst (fst sim)) (snd (fst sim))
             1500 (3 # 10) 434 (snd sim) (5 # 1000) in
  ~ STC module == 0 /\
  bins_sum (monthly_production r) == real_specific_yield r * (STC module / 1000).
Proof.
  intros t mc module sim r. split; [vm_compute; discriminate|].
  apply (monthly_production_totals mc module 95 1500 (3 # 10) 434 (5 # 1000)).
  vm_compute; discriminate.
Defined.

Lemma loss_diagram_steps_down_witness :
  let lp := loss_proportions 1200 1100 1000 in
  let r := update_gui_results 95 1000 (hourly_year 2023 325) 1500 (3 # 10) 434 lp
             (5 # 1000) in
  0 <= 95 /\ 0 <= 1000 /\ 0 < final_yield_ratio lp /\
  exists a0 a1 a2 a3 b1 b2 : Q,
    connector_levels (create_loss_diagram (scaled_losses r))
      = [(a0, a1); (a1, a2); (a2, a3)] /\
    bar_values (create_loss_diagram (scaled_losses r)) = [a0; b1; b2; a3] /\
    a1 <= a0 /\ a2 <= a1 /\ a2 == a3 /\ a3 = real_specific_yield r /\ 0 <= a3 /\
    b1 <= 0 /\ b2 <= 0 /\ a0 + b1 + b2 == a3.
Proof.
  intros lp r.
  split; [vm_compute; discriminate|]. split; [vm_compute; discriminate|].
  split; [vm_compute; reflexivity|].
  apply (loss_diagram_steps_down 95 1000 (hourly_year 2023 325) 1500 (3 # 10) 434 lp
           (5 # 1000));
    try (vm_compute; discriminate); vm_compute; reflexivity.
Defined.

Lemma successful_run_shows_results_witness :
  let c := demo_collaborators (Returns tt) None (Returns 7%nat) (Returns 9%nat) in
  simulation_results (press_run (fun _ => "module | inverter"%string) c (initial_gui nat))
    = Some 9%nat /\
  export_button_state
    (press_run (fun _ => "module | inverter"%string) c (initial_gui nat)) = normal.
Proof.
  intros c.
  destruct (successful_run_shows_results (fun _ => "module | inverter"%string)
              c (initial_gui nat) 7%nat 8%nat 9%nat
              eq_refl eq_refl eq_refl eq_refl) as [_ [_ [He [Hr _]]]].
  split; [exact Hr | exact He].
Defined.

Lemma export_enabled_only_with_results_witness :
  let c := demo_collaborators (Returns tt) None (Returns 7%nat) (Returns 9%nat) in
  let g' := press_run (fun _ => ""%string) c (initial_gui nat) in
  export_button_state g' = normal /\ simulation_results g' <> None.
Proof.
  intros c g'. split; [reflexivity|].
  assert (H := proj1 (proj2 (export_enabled_only_with_results
                               (W:=nat) (S:=nat) (R:=nat)
                               (fun _ => ""%string) (fun s => s)))
                 c (initial_gui nat) ltac:(cbn; discriminate)).
  exact (proj1 H eq_refl).
Defined.

Lemma export_after_failed_rerun_witness :
  let c1 := demo_collaborators (Returns tt) None (Returns 7%nat) (Returns 9%nat) in
  let c2 := demo_collaborators (Returns tt) None (Raises "timeout") (Returns 5%nat) in
  let g2 := press_run (fun _ => ""%string) c2
              (press_run (fun _ => ""%string) c1 (initial_gui nat)) in
  snd (export_to_csv (fun s => s) "out.csv" (fun _ _ => Returns tt) g2)
    = Some ("out.csv"%string, 9%nat).
Proof.
  intros c1 c2 g2.
  apply (export_after_failed_rerun (fun _ => ""%string) (fun s => s)
           c1 c2 (initial_gui nat) 7%nat 8%nat 9%nat "out.csv" (fun _ _ => Returns tt));
    try reflexivity; discriminate.
Defined.

Lemma weather_cache_round_trip_witness :
  let fs : disk nat := fun _ => None in
  let first := get_tmy_data_disk (fun d : nat => d) (fun f : nat => Returns f)
                 fs (Returns 7%nat) (494077 # 10000) (86908 # 10000)
                 (Some "Heidelberg"%string) in
  fst (get_tmy_data_disk (fun d : nat => d) (fun f : nat => Returns f)
         (snd first) (Raises "offline") (525200 # 10000) (134050 # 10000)
         (Some "Heidelberg"%string))
  = (Returns (Some 7%nat), []).
Proof.
  intros fs first.
  destruct (weather_cache_round_trip (fun d : nat => d) (fun f : nat => Returns f)
              fs 7%nat (494077 # 10000) (86908 # 10000) (Some "Heidelberg"%string)
              eq_refl eq_refl) as [_ [_ [Hhit _]]].
  fold first in Hhit.
  rewrite (Hhit (Raises "offline") (525200 # 10000) (134050 # 10000)
             (Some "Heidelberg"%string) eq_refl).
  reflexivity.
Defined.

Lemma weather_cache_keeps_files_witness :
  let fs : disk nat :=
    fun n => if (n =? "tmy_Berlin.csv")%string then Some 3%nat else None in
  snd (get_tmy_data_disk (fun d : nat => d) (fun f : nat => Returns f)
         fs (Returns 7%nat) (494077 # 10000) (86908 # 10000)
         (Some "Heidelberg"%string)) "tmy_Berlin.csv"%string
  = Some 3%nat.
Proof.
  intros fs.
  apply (proj1 (weather_cache_keeps_files (fun d : nat => d) (fun f : nat => Returns f)
                  fs (Returns 7%nat) (494077 # 10000) (86908 # 10000)
                  (Some "Heidelberg"%string))).
  reflexivity.
Defined.

Lemma city_selected_writes_coordinates_witness :
  let p := {| mode_selector := "Select City";
              city_combobox_state := normal;
              lat_entry := {| entry_state := disabled; entry_text := "52.52" |};
              lon_entry := {| entry_state := disabled; entry_text := "13.405" |} |} in
  city_lookup GERMAN_CITIES "Heidelberg" = Some (494077 # 10000, 86908 # 10000) /\
  exists p', city_selected (fun q => format_4f q) "Heidelberg" p = Returns p' /\
             entry_text (lat_entry p') = "49.4077"%string /\
             entry_state (lat_entry p') = disabled.
Proof.
  intros p. split; [reflexivity|].
  destruct (proj1 (city_selected_writes_coordinates (fun q => format_4f q)
                     "Heidelberg" p)
              (494077 # 10000) (86908 # 10000) eq_refl)
    as [p' [Hp [Hlat [_ [Hst _]]]]].
  exists p'. split; [exact Hp|]. split.
  - rewrite Hlat. vm_compute. reflexivity.
  - rewrite Hst. reflexivity.
Defined.

Lemma caught_exception_reenables_run_witness :
  let c := demo_collaborators (Raises "ValueError") None (Returns 7%nat) (Returns 9%nat) in
  run_button_state (press_run (fun _ => ""%string) c (initial_gui nat)) = normal /\
  run_button_text (press_run (fun _ => ""%string) c (initial_gui nat)) = "Error"%string.
Proof.
  intros c.
  destruct (caught_exception_reenables_run (fun _ => ""%string) c (initial_gui nat)
              "ValueError" (or_introl eq_refl)) as [Hs [Ht _]].
  split; [exact Hs | exact Ht].
Defined.

Lemma plotting_exception_leaves_run_disabled_witness :
  let c := demo_collaborators (Returns tt) None (Returns 7%nat) (Raises "OSError") in
  run_button_state (press_run (fun _ => ""%string) c (initial_gui nat)) = disabled /\
  run_button_text (press_run (fun _ => ""%string) c (initial_gui nat))
    = "Simulating..."%string /\
  simulation_results (press_run (fun _ => ""%string) c (initial_gui nat)) = None.
Proof.
  intros c.
  apply (plotting_exception_leaves_run_disabled (fun _ => ""%string) c (initial_gui nat)
           7%nat 8%nat "OSError" eq_refl eq_refl eq_refl eq_refl).
Defined.
